(** * Payment / enrollment lifecycle of the Worldpedia Education backend

    A shallow embedding of [PaymentService] (the Midtrans transaction
    coordinator: createTransaction, verifyPayment, processWebhook,
    cancelTransaction, expireTransaction, refundTransaction,
    isPaymentEligible) together with the part of the Mongoose layer it
    relies on: the Payment collection with its two unique indexes, the
    Enrollment collection, and multi-document transactions (sessions).

    Asynchronous code is sequentialised: one call runs from start to end
    on a [World].  Everything the outside answers (wall clock, uuid
    generator, payment gateway, store failures) is explicit. *)

From Stdlib Require Import ZArith.
From stdpp Require Import gmap strings list fin_maps pretty sorting.

Local Open Scope Z_scope.
Local Open Scope string_scope.

(** ** Data model *)

(** Modelled from the spec: the [PaymentStatus] enum of types/payment.types,
    whose declaration is not part of the sources.  The members are the ones
    the sources name ([PaymentStatus.PENDING], [SETTLEMENT], [CAPTURE],
    [CANCEL], [EXPIRE], [REFUND], [PARTIAL_REFUND] in the payment service,
    [COMPLETED] and [FAILED] in models/Payment.ts) plus [DENY] of the spec's
    mapping table. *)
Inductive PaymentStatus : Type :=
  | PENDING | SETTLEMENT | CAPTURE | DENY | CANCEL | EXPIRE
  | REFUND | PARTIAL_REFUND | FAILED | COMPLETED.

#[global] Instance PaymentStatus_eq_dec : EqDecision PaymentStatus.
Proof. solve_decision. Defined.

(** The four enrollment statuses ('pending_payment' | 'active' |
    'completed' | 'cancelled'). *)
Inductive EnrollmentStatus : Type :=
  | pending_payment | active | completed | cancelled.

#[global] Instance EnrollmentStatus_eq_dec : EqDecision EnrollmentStatus.
Proof. solve_decision. Defined.

Record Enrollment : Type := mkEnrollment {
  studentId : string;
  courseId : string;
  enr_status : EnrollmentStatus;
  progress : Z
}.

(** A Payment document (models/Payment.ts).  Dates are milliseconds since
    the epoch. *)
Record Payment : Type := mkPayment {
  transactionId : string;
  orderId : string;
  userId : string;
  enrollmentId : string;
  amount : Z;
  status : PaymentStatus;
  paymentMethod : string;
  redirectUrl : option string;
  createdAt : Z;
  paidAt : option Z
}.

Definition set_status (s : PaymentStatus) (p : Payment) : Payment :=
  mkPayment (transactionId p) (orderId p) (userId p) (enrollmentId p)
            (amount p) s (paymentMethod p) (redirectUrl p) (createdAt p)
            (paidAt p).

Definition set_paymentMethod (m : string) (p : Payment) : Payment :=
  mkPayment (transactionId p) (orderId p) (userId p) (enrollmentId p)
            (amount p) (status p) m (redirectUrl p) (createdAt p) (paidAt p).

Definition set_paidAt (t : Z) (p : Payment) : Payment :=
  mkPayment (transactionId p) (orderId p) (userId p) (enrollmentId p)
            (amount p) (status p) (paymentMethod p) (redirectUrl p)
            (createdAt p) (Some t).

Definition set_enr_status (s : EnrollmentStatus) (e : Enrollment) : Enrollment :=
  mkEnrollment (studentId e) (courseId e) s (progress e).

Definition set_progress (n : Z) (e : Enrollment) : Enrollment :=
  mkEnrollment (studentId e) (courseId e) (enr_status e) n.

(** The database: the Payment collection in insertion order (a document is
    identified by its position, documents are never deleted) and the
    Enrollment collection keyed by document id. *)
Record Store : Type := mkStore {
  payments : list Payment;
  enrollments : gmap string Enrollment
}.

(** ** Errors and results *)

Inductive Error : Type :=
  | ValidationError (msg : string)
  | NotFoundError (msg : string)
  | GatewayError
  | DuplicateKeyError
  | StoreError.

Inductive Result (A : Type) : Type :=
  | Ok (a : A)
  | Err (e : Error).
Arguments Ok {A} a.
Arguments Err {A} e.

Definition is_Ok {A} (r : Result A) : bool :=
  match r with Ok _ => true | Err _ => false end.

(** ** The world a call runs in *)

(** A call made to the payment gateway. *)
Inductive GatewayCall : Type :=
  | GwCreate (order_id : string) (gross_amount : Z)
  | GwStatus (transaction_id : string)
  | GwCancel (transaction_id : string)
  | GwExpire (transaction_id : string)
  | GwRefund (transaction_id : string) (refund_amount : option Z)
             (reason : option string).

Record World : Type := mkWorld {
  store : Store;             (* committed state of the database *)
  session : option Store;    (* view of the open transaction, if any *)
  faults : list bool;        (* outcome of the next store operations,
                                [true] = the operation fails *)
  ticks : nat;               (* number of clock readings taken so far *)
  uuids : nat;               (* number of uuids drawn so far *)
  writes : nat;              (* number of document writes issued so far *)
  gwlog : list GatewayCall   (* gateway calls made so far, latest first *)
}.

Definition with_store (s : Store) (w : World) : World :=
  mkWorld s (session w) (faults w) (ticks w) (uuids w) (writes w) (gwlog w).
Definition with_session (o : option Store) (w : World) : World :=
  mkWorld (store w) o (faults w) (ticks w) (uuids w) (writes w) (gwlog w).
Definition with_faults (f : list bool) (w : World) : World :=
  mkWorld (store w) (session w) f (ticks w) (uuids w) (writes w) (gwlog w).
Definition with_ticks (n : nat) (w : World) : World :=
  mkWorld (store w) (session w) (faults w) n (uuids w) (writes w) (gwlog w).
Definition with_uuids (n : nat) (w : World) : World :=
  mkWorld (store w) (session w) (faults w) (ticks w) n (writes w) (gwlog w).
Definition with_writes (n : nat) (w : World) : World :=
  mkWorld (store w) (session w) (faults w) (ticks w) (uuids w) n (gwlog w).
Definition with_gwlog (l : list GatewayCall) (w : World) : World :=
  mkWorld (store w) (session w) (faults w) (ticks w) (uuids w) (writes w) l.

(** ** A state and exception monad for the service code *)

Definition M (A : Type) : Type := World -> Result A * World.

Definition ret {A} (a : A) : M A := fun w => (Ok a, w).

Definition bind {A B} (m : M A) (k : A -> M B) : M B :=
  fun w => match m w with
           | (Ok a, w') => k a w'
           | (Err e, w') => (Err e, w')
           end.

Definition throw {A} (e : Error) : M A := fun w => (Err e, w).

(** [try { m } catch (error) { h error }] *)
Definition try_catch {A} (m : M A) (h : Error -> M A) : M A :=
  fun w => match m w with
           | (Ok a, w') => (Ok a, w')
           | (Err e, w') => h e w'
           end.

#[global] Instance M_ret : MRet M := @ret.
#[global] Instance M_bind : MBind M := fun A B k m => bind m k.

(** ** What the outside answers *)

(** Response of the gateway's status endpoint
    ([coreApi.transaction.status]); [gross_amount] and [settlement_time]
    are taken already parsed. *)
Record StatusResult : Type := mkStatusResult {
  transaction_id : string;
  transaction_status : string;
  fraud_status : option string;
  payment_type : option string;
  gross_amount : Z;
  settlement_time : option Z
}.

Record SnapResult : Type := mkSnapResult {
  token : string;
  redirect_url : string
}.

Record Metadata : Type := mkMetadata {
  md_enrollmentId : option string
}.

(** The fields of a [TransactionRequest] the coordinator itself looks at;
    customer details, items and discount are only forwarded to the
    gateway. *)
Record TransactionRequest : Type := mkTransactionRequest {
  req_userId : string;
  req_amount : Z;
  req_metadata : option Metadata
}.

Record ValidationResult : Type := mkValidationResult {
  valid : bool;
  errors : list string
}.

Record AmountValidation : Type := mkAmountValidation {
  amount_valid : bool;
  amount_error : option string
}.

(** The collaborators of the service.  A gateway operation answering
    [None] (or [false]) is one that throws.  The shape check
    [validateTransactionRequest] of utils/payment-validator is not part of
    the sources and is kept as a parameter. *)
Record Env : Type := mkEnv {
  clock : nat -> Z;                        (* n-th reading of Date.now() *)
  uuid_gen : nat -> string;                (* n-th value of uuidv4() *)
  validateTransactionRequest : TransactionRequest -> ValidationResult;
  snap_createTransaction : string -> Z -> option SnapResult;
  core_status : string -> option StatusResult;
  core_cancel : string -> bool;
  core_expire : string -> bool;
  core_refund : string -> option Z -> option string -> bool
}.

(** ** JavaScript helpers *)

(** Truthiness of an optional string: [undefined] and the empty string
    are falsy. *)
Definition truthy_str (o : option string) : bool :=
  match o with
  | Some s => negb (String.eqb s "")
  | None => false
  end.

(** [a || b] on an optional string. *)
Definition or_else (o : option string) (d : string) : string :=
  match o with
  | Some s => if String.eqb s "" then d else s
  | None => d
  end.

(** Truthiness of an optional number ([undefined] and 0 are falsy). *)
Definition truthy_num (o : option Z) : bool :=
  match o with
  | Some n => negb (Z.eqb n 0)
  | None => false
  end.

(** A query field [{ key: value }]: an [undefined] value matches no
    document, since the key is required in the schema. *)
Definition field_is (value : option string) (actual : string) : Prop :=
  value = Some actual.

#[global] Instance field_is_dec v a : Decision (field_is v a).
Proof. unfold field_is. solve_decision. Defined.

(** ** Payment validator *)

(** Modelled from the spec: [mapMidtransStatus] of utils/payment-validator,
    which is not part of the sources.  It follows the spec's mapping table;
    "capture" with a fraud status other than "accept" is "treated as still
    pending", every unknown gateway status gives FAILED. *)
Definition mapMidtransStatus (transactionStatus : string)
    (fraudStatus : option string) : PaymentStatus :=
  if String.eqb transactionStatus "capture" then
    match fraudStatus with
    | Some f => if String.eqb f "accept" then CAPTURE else PENDING
    | None => PENDING
    end
  else if String.eqb transactionStatus "settlement" then SETTLEMENT
  else if String.eqb transactionStatus "pending" then PENDING
  else if String.eqb transactionStatus "deny" then DENY
  else if String.eqb transactionStatus "cancel" then CANCEL
  else if String.eqb transactionStatus "expire" then EXPIRE
  else if String.eqb transactionStatus "refund" then REFUND
  else if String.eqb transactionStatus "partial_refund" then PARTIAL_REFUND
  else FAILED.

(** The gateway statuses of the mapping table. *)
Definition known_gateway_statuses : list string :=
  ["capture"; "settlement"; "pending"; "deny"; "cancel"; "expire";
   "refund"; "partial_refund"].

(** [isPaymentEligible(amount)]: amount >= 1000 && amount <= 999999999. *)
Definition isPaymentEligible (amount : Z) : bool :=
  (1000 <=? amount)%Z && (amount <=? 999999999)%Z.

(** Modelled from the spec: [validateAmount] of utils/payment-validator,
    which is not part of the sources: "amount >= 1000 and <= 999999999,
    reject otherwise". *)
Definition validateAmount (amount : Z) : AmountValidation :=
  if (amount <? 1000)%Z then
    mkAmountValidation false (Some "Amount is below the minimum")
  else if (999999999 <? amount)%Z then
    mkAmountValidation false (Some "Amount is above the maximum")
  else mkAmountValidation true None.

(** ** The Mongoose layer *)

(** Every operation that talks to the database first consumes one entry
    of the fault schedule; an exhausted schedule means no more failures. *)
Definition next_fault (fs : list bool) : bool :=
  match fs with
  | b :: _ => b
  | [] => false
  end.

Definition store_op : M unit := fun w =>
  let w' := with_faults (tail (faults w)) w in
  if next_fault (faults w) then (Err StoreError, w') else (Ok tt, w').

(** The state an operation sees: the transaction's view when it is given
    the session, the committed store otherwise. *)
Definition view (in_session : bool) (w : World) : Store :=
  if in_session then default (store w) (session w) else store w.

Definition read_view (in_session : bool) : M Store :=
  fun w => (Ok (view in_session w), w).

Definition write_view (in_session : bool) (s : Store) : M unit := fun w =>
  let w' := with_writes (S (writes w)) w in
  if in_session then
    match session w with
    | Some _ => (Ok tt, with_session (Some s) w')
    | None => (Ok tt, with_store s w')
    end
  else (Ok tt, with_store s w').

(** [mongoose.startSession()] and [session.startTransaction()]: both are
    local to the client and do not consume the fault schedule.  The
    transaction starts from the committed store. *)
Definition startTransaction : M unit :=
  fun w => (Ok tt, with_session (Some (store w)) w).

(** [session.commitTransaction()]: the transaction's view becomes the
    committed store, unless the commit itself fails. *)
Definition apply_session : M unit := fun w =>
  match session w with
  | Some s => (Ok tt, with_session None (with_store s w))
  | None => (Ok tt, w)
  end.

Definition commitTransaction : M unit :=
  store_op ;; apply_session.

(** [session.abortTransaction()]: the transaction's view is dropped. *)
Definition abortTransaction : M unit :=
  fun w => (Ok tt, with_session None w).

(** [Payment.findOne(filter)], the first matching document in collection
    order together with its position. *)
Definition Payment_findOne (in_session : bool) (P : Payment -> Prop)
    `{!forall p, Decision (P p)} : M (option (nat * Payment)) :=
  store_op ;;
  s ← read_view in_session;
  mret (list_find P (payments s)).

(** [payment.save()] on a loaded document. *)
Definition Payment_save (in_session : bool) (i : nat) (p : Payment) : M unit :=
  store_op ;;
  s ← read_view in_session;
  write_view in_session (mkStore (<[i:=p]> (payments s)) (enrollments s)).

(** A clash with one of the two unique indexes (transactionId, orderId). *)
Definition clashes (p q : Payment) : Prop :=
  transactionId q = transactionId p \/ orderId q = orderId p.

#[global] Instance clashes_dec p q : Decision (clashes p q).
Proof. unfold clashes. solve_decision. Defined.

(** [payment.save()] on a new document. *)
Definition Payment_insert (in_session : bool) (p : Payment) : M unit :=
  store_op ;;
  s ← read_view in_session;
  match list_find (clashes p) (payments s) with
  | Some _ => throw DuplicateKeyError
  | None => write_view in_session (mkStore (payments s ++ [p]) (enrollments s))
  end.

(** [Payment.findOneAndUpdate(filter, update)] *)
Definition Payment_findOneAndUpdate (P : Payment -> Prop)
    `{!forall p, Decision (P p)} (upd : Payment -> Payment) : M unit :=
  store_op ;;
  s ← read_view false;
  match list_find P (payments s) with
  | Some (i, p) =>
      write_view false (mkStore (<[i:=upd p]> (payments s)) (enrollments s))
  | None => mret tt
  end.

(** [Enrollment.findById(id)] *)
Definition Enrollment_findById (in_session : bool) (id : string)
    : M (option Enrollment) :=
  store_op ;;
  s ← read_view in_session;
  mret (enrollments s !! id).

(** [enrollment.save()] on a loaded document. *)
Definition Enrollment_save (in_session : bool) (id : string) (e : Enrollment)
    : M unit :=
  store_op ;;
  s ← read_view in_session;
  write_view in_session (mkStore (payments s) (<[id:=e]> (enrollments s))).

(** [Enrollment.findByIdAndUpdate(id, update)] *)
Definition Enrollment_findByIdAndUpdate (id : string)
    (upd : Enrollment -> Enrollment) : M unit :=
  store_op ;;
  s ← read_view false;
  match enrollments s !! id with
  | Some e =>
      write_view false (mkStore (payments s) (<[id:=upd e]> (enrollments s)))
  | None => mret tt
  end.

(** ** The payment service *)

Record CreatePaymentResponse : Type := mkCreatePaymentResponse {
  cp_transactionId : string;
  cp_orderId : string;
  cp_amount : Z;
  cp_snapToken : string;
  cp_redirectUrl : string;
  cp_expiresAt : Z
}.

Record VerifyPaymentResponse : Type := mkVerifyPaymentResponse {
  vp_transactionId : string;
  vp_status : PaymentStatus;
  vp_paidAt : option Z;
  vp_paymentMethod : option string;
  vp_amount : Z
}.

(** The webhook notification; every field but the status may be absent. *)
Record WebhookPayload : Type := mkWebhookPayload {
  wh_order_id : option string;
  wh_transaction_status : string;
  wh_fraud_status : option string;
  wh_payment_type : option string;
  wh_transaction_id : option string
}.

(** status === SETTLEMENT || status === CAPTURE *)
Definition settles (s : PaymentStatus) : bool :=
  bool_decide (s = SETTLEMENT) || bool_decide (s = CAPTURE).

(** status === CANCEL || status === EXPIRE *)
Definition cancels (s : PaymentStatus) : bool :=
  bool_decide (s = CANCEL) || bool_decide (s = EXPIRE).

(** The update { status: 'active', progress: 0 }. *)
Definition activate (e : Enrollment) : Enrollment :=
  set_progress 0 (set_enr_status active e).

(** { $or: [{ transactionId }, { orderId: transactionId }] } *)
Definition verify_filter (tid : string) (p : Payment) : Prop :=
  transactionId p = tid \/ orderId p = tid.

#[global] Instance verify_filter_dec tid p : Decision (verify_filter tid p).
Proof. unfold verify_filter. solve_decision. Defined.

(** { $or: [{ orderId: order_id }, { transactionId: transaction_id }] } *)
Definition webhook_filter (payload : WebhookPayload) (p : Payment) : Prop :=
  field_is (wh_order_id payload) (orderId p) \/
  field_is (wh_transaction_id payload) (transactionId p).

#[global] Instance webhook_filter_dec payload p :
  Decision (webhook_filter payload p).
Proof. unfold webhook_filter. solve_decision. Defined.

(** { transactionId } *)
Definition tid_filter (tid : string) (p : Payment) : Prop :=
  transactionId p = tid.

#[global] Instance tid_filter_dec tid p : Decision (tid_filter tid p).
Proof. unfold tid_filter. solve_decision. Defined.

(** The message of the NotFoundError of [processWebhook]. *)
Definition not_found_message (payload : WebhookPayload) : string :=
  "Payment not found for Order ID: "
  ++ default "undefined" (wh_order_id payload).

Section Service.

Variable env : Env.

Definition Date_now : M Z := fun w =>
  (Ok (clock env (ticks w)), with_ticks (S (ticks w)) w).

Definition uuidv4 : M string := fun w =>
  (Ok (uuid_gen env (uuids w)), with_uuids (S (uuids w)) w).

(** A call to the gateway is recorded, then answered by [env]. *)
Definition gateway (c : GatewayCall) : M unit := fun w =>
  (Ok tt, with_gwlog (c :: gwlog w) w).

Definition snapClient_createTransaction (order_id : string) (gross : Z)
    : M SnapResult :=
  gateway (GwCreate order_id gross) ;;
  match snap_createTransaction env order_id gross with
  | Some r => mret r
  | None => throw GatewayError
  end.

Definition coreApi_status (tid : string) : M StatusResult :=
  gateway (GwStatus tid) ;;
  match core_status env tid with
  | Some r => mret r
  | None => throw GatewayError
  end.

Definition coreApi_cancel (tid : string) : M unit :=
  gateway (GwCancel tid) ;;
  if core_cancel env tid then mret tt else throw GatewayError.

Definition coreApi_expire (tid : string) : M unit :=
  gateway (GwExpire tid) ;;
  if core_expire env tid then mret tt else throw GatewayError.

Definition coreApi_refund (tid : string) (amt : option Z)
    (reason : option string) : M unit :=
  gateway (GwRefund tid amt reason) ;;
  if core_refund env tid amt reason then mret tt else throw GatewayError.

(** The [try] block of [createTransaction]. *)
Definition createTransaction_body (request : TransactionRequest)
    : M CreatePaymentResponse :=
  let validation := validateTransactionRequest env request in
  if negb (valid validation) then
    throw (ValidationError
             ("Validation failed: " ++ String.concat ", " (errors validation)))
  else
    let amountValidation := validateAmount (req_amount request) in
    if negb (amount_valid amountValidation) then
      throw (ValidationError
               (or_else (amount_error amountValidation) "Invalid amount"))
    else
      transactionId ← uuidv4;
      t_order ← Date_now;
      let orderId := req_userId request ++ "-" ++ pretty t_order in
      t_expiry ← Date_now;
      let expiresAt := (t_expiry + 60 * 60 * 1000)%Z in
      let enrollmentId := req_metadata request ≫= md_enrollmentId in
      if negb (truthy_str enrollmentId) then
        throw (ValidationError "Enrollment ID is required in metadata")
      else
        midtransResult ←
          snapClient_createTransaction orderId (req_amount request);
        t_created ← Date_now;
        let payment :=
          mkPayment transactionId orderId (req_userId request)
                    (default "" enrollmentId) (req_amount request) PENDING
                    "unknown" (Some (redirect_url midtransResult))
                    t_created None in
        Payment_insert true payment ;;
        commitTransaction ;;
        mret (mkCreatePaymentResponse transactionId orderId
                (req_amount request) (token midtransResult)
                (redirect_url midtransResult) expiresAt).

(** [createTransaction(request)] *)
Definition createTransaction (request : TransactionRequest)
    : M CreatePaymentResponse :=
  startTransaction ;;
  try_catch (createTransaction_body request)
            (fun error => abortTransaction ;; throw error).

(** [verifyPayment(transactionId)]; its [catch] only logs and rethrows. *)
Definition verifyPayment (tid : string) : M VerifyPaymentResponse :=
  result ← coreApi_status tid;
  let st := mapMidtransStatus (transaction_status result) (fraud_status result) in
  found ← Payment_findOne false (verify_filter tid);
  match found with
  | Some (i, payment) =>
      if bool_decide (status payment = st) then mret tt
      else
        let payment := set_status st payment in
        let payment :=
          set_paymentMethod
            (or_else (payment_type result) (paymentMethod payment)) payment in
        payment ←
          (if settles st then
             t ← match settlement_time result with
                 | Some t => mret t
                 | None => Date_now
                 end;
             Enrollment_findByIdAndUpdate (enrollmentId payment) activate ;;
             mret (set_paidAt t payment)
           else if cancels st then
             Enrollment_findByIdAndUpdate (enrollmentId payment)
               (set_enr_status cancelled) ;;
             mret payment
           else mret payment);
        Payment_save false i payment
  | None => mret tt
  end ;;
  mret (mkVerifyPaymentResponse (transaction_id result) st
          (settlement_time result) (payment_type result)
          (gross_amount result)).

(** The Enrollment update of [processWebhook]. *)
Definition webhook_enrollment (newStatus : PaymentStatus) (eid : string)
    : M unit :=
  if settles newStatus then
    enrollment ← Enrollment_findById true eid;
    match enrollment with
    | Some e => Enrollment_save true eid (activate e)
    | None => mret tt
    end
  else if cancels newStatus then
    enrollment ← Enrollment_findById true eid;
    match enrollment with
    | Some e =>
        if bool_decide (enr_status e = pending_payment)
        then Enrollment_save true eid (set_enr_status cancelled e)
        else mret tt
    | None => mret tt
    end
  else mret tt.

(** The [try] block of [processWebhook]. *)
Definition processWebhook_body (payload : WebhookPayload) : M PaymentStatus :=
  let newStatus :=
    mapMidtransStatus (wh_transaction_status payload)
                      (wh_fraud_status payload) in
  found ← Payment_findOne true (webhook_filter payload);
  match found with
  | None =>
      throw (NotFoundError (not_found_message payload))
  | Some (i, payment) =>
      if bool_decide (status payment = newStatus) then
        commitTransaction ;; mret newStatus
      else
        let payment := set_status newStatus payment in
        let payment :=
          set_paymentMethod
            (or_else (wh_payment_type payload) (paymentMethod payment))
            payment in
        payment ← (if settles newStatus
                   then t ← Date_now; mret (set_paidAt t payment)
                   else mret payment);
        Payment_save true i payment ;;
        webhook_enrollment newStatus (enrollmentId payment) ;;
        commitTransaction ;;
        mret newStatus
  end.

(** [processWebhook(payload)] *)
Definition processWebhook (payload : WebhookPayload) : M PaymentStatus :=
  startTransaction ;;
  try_catch (processWebhook_body payload)
            (fun error => abortTransaction ;; throw error).

(** [cancelTransaction(transactionId)] *)
Definition cancelTransaction (tid : string) : M unit :=
  coreApi_cancel tid ;;
  Payment_findOneAndUpdate (tid_filter tid) (set_status CANCEL).

(** [expireTransaction(transactionId)] *)
Definition expireTransaction (tid : string) : M unit :=
  coreApi_expire tid ;;
  Payment_findOneAndUpdate (tid_filter tid) (set_status EXPIRE).

(** [refundTransaction(transactionId, amount?, reason?)]; the refund key
    is built from a clock reading when an amount is given. *)
Definition refundTransaction (tid : string) (amt : option Z)
    (reason : option string) : M unit :=
  p_amount ← (if truthy_num amt then Date_now ;; mret amt else mret None);
  let p_reason := if truthy_str reason then reason else None in
  coreApi_refund tid p_amount p_reason ;;
  let newStatus := if truthy_num amt then PARTIAL_REFUND else REFUND in
  Payment_findOneAndUpdate (tid_filter tid) (set_status newStatus).

(** [n] calls of [verifyPayment] in a row, whatever each returns. *)
Fixpoint verifyPayment_times (n : nat) (tid : string) (w : World) : World :=
  match n with
  | O => w
  | S k => verifyPayment_times k tid (snd (verifyPayment tid w))
  end.

End Service.

(** ** What the spec asks of a status update *)

(** The Payment mutation of a status update, in the spec's words: set
    status and paymentMethod, and paidAt when the new status settles. *)
Definition spec_payment_update (newStatus : PaymentStatus)
    (payment_type : option string) (now : Z) (p : Payment) : Payment :=
  let p1 := set_paymentMethod (or_else payment_type (paymentMethod p))
                              (set_status newStatus p) in
  if settles newStatus then set_paidAt now p1 else p1.

(** The Enrollment mutation of a status update, in the spec's words:
    activate on settlement or capture; cancel on cancel or expire, but only
    an enrollment that is in pending_payment. *)
Definition spec_enrollment_update (newStatus : PaymentStatus) (eid : string)
    (m : gmap string Enrollment) : gmap string Enrollment :=
  match m !! eid with
  | Some e =>
      if settles newStatus then <[eid := activate e]> m
      else if cancels newStatus && bool_decide (enr_status e = pending_payment)
           then <[eid := set_enr_status cancelled e]> m
           else m
  | None => m
  end.

(** The status a webhook notification maps to. *)
Definition webhook_status (payload : WebhookPayload) : PaymentStatus :=
  mapMidtransStatus (wh_transaction_status payload) (wh_fraud_status payload).

(** The time recorded as paidAt by [verifyPayment]. *)
Definition verify_paid_time (env : Env) (result : StatusResult) (w : World) : Z :=
  match settlement_time result with
  | Some t => t
  | None => clock env (ticks w)
  end.

(** The parameters [refundTransaction] hands to the gateway. *)
Definition refund_amount_param (amt : option Z) : option Z :=
  if truthy_num amt then amt else None.

Definition refund_reason_param (reason : option string) : option string :=
  if truthy_str reason then reason else None.

(** ** Scenarios *)

Definition sample_env : Env :=
  mkEnv (fun n => 1700000000000 + 5 * Z.of_nat n)
        (fun n => "uuid-" ++ pretty n)
        (fun _ => mkValidationResult true [])
        (fun _ _ => Some (mkSnapResult "snap-token" "https://pay.example/r"))
        (fun t => Some (mkStatusResult t "settlement" None (Some "gopay")
                          150000 None))
        (fun _ => true) (fun _ => true) (fun _ _ _ => true).

Definition sample_enrollment : Enrollment :=
  mkEnrollment "student-1" "course-1" pending_payment 0.

Definition sample_store : Store :=
  mkStore [] {[ "E1" := sample_enrollment ]}.

Definition sample_world : World :=
  mkWorld sample_store None [] 0 0 0 [].

Definition sample_request : TransactionRequest :=
  mkTransactionRequest "u1" 150000 (Some (mkMetadata (Some "E1"))).

Definition orphan_payment : Payment :=
  mkPayment "tx-1" "u1-1700000000000" "u1" "E1" 150000 PENDING "unknown"
            None 1700000000000 None.

Definition orphan_world : World :=
  mkWorld (mkStore [orphan_payment] {[ "E1" := sample_enrollment ]})
          None [] 0 0 0 [].

(** The same store later on: three clock readings and one uuid taken. *)
Definition busy_world : World :=
  mkWorld (mkStore [orphan_payment] {[ "E1" := sample_enrollment ]})
          None [] 3 1 0 [].

Definition settled_payload : WebhookPayload :=
  mkWebhookPayload (Some "u1-1700000000000") "settlement" None
                   (Some "bank_transfer") None.

Definition settled_payment : Payment :=
  mkPayment "tx-1" "u1-1700000000000" "u1" "E1" 150000 SETTLEMENT
            "bank_transfer" None 1700000000000 (Some 1700000100000).

Definition settled_world : World :=
  mkWorld (mkStore [settled_payment]
                   {[ "E1" := activate sample_enrollment ]})
          None [] 0 0 0 [].

Definition completed_enrollment : Enrollment :=
  mkEnrollment "student-1" "course-1" completed 100.

(** A settled Payment whose Enrollment has since been completed. *)
Definition redelivery_world : World :=
  mkWorld (mkStore [settled_payment] {[ "E1" := completed_enrollment ]})
          None [] 0 0 0 [].

Definition completed_world : World :=
  mkWorld (mkStore [orphan_payment] {[ "E1" := completed_enrollment ]})
          None [] 0 0 0 [].

(** A world in which the first store operation of the next call fails. *)
Definition failing_store_world : World :=
  mkWorld (mkStore [orphan_payment] {[ "E1" := sample_enrollment ]})
          None [true] 0 0 0 [].

(** A world in which the third store operation of the next call fails. *)
Definition failing_save_world : World :=
  mkWorld (mkStore [orphan_payment] {[ "E1" := sample_enrollment ]})
          None [false; false; true] 0 0 0 [].

(** An enrollment paid through a second Payment while an earlier attempt
    was left pending. *)
Definition abandoned_payment : Payment := orphan_payment.

Definition paid_payment : Payment :=
  mkPayment "tx-2" "u1-1700000060000" "u1" "E1" 150000 SETTLEMENT "gopay"
            None 1700000060000 (Some 1700000090000).

Definition active_enrollment : Enrollment :=
  mkEnrollment "student-1" "course-1" active 40.

Definition retry_world : World :=
  mkWorld (mkStore [abandoned_payment; paid_payment]
                   {[ "E1" := active_enrollment ]})
          None [] 0 0 0 [].

(** A gateway that reports every transaction as expired. *)
Definition expired_env : Env :=
  mkEnv (clock sample_env) (uuid_gen sample_env)
        (validateTransactionRequest sample_env)
        (snap_createTransaction sample_env)
        (fun t => Some (mkStatusResult t "expire" None None 150000 None))
        (fun _ => true) (fun _ => true) (fun _ _ _ => true).

Definition expired_payload : WebhookPayload :=
  mkWebhookPayload (Some "u1-1700000000000") "expire" None None (Some "tx-1").

(** ** Invariants of the Payment collection *)

(** What identifies a Payment and is fixed at creation. *)
Definition payment_identity (p : Payment)
    : string * string * string * string * Z * Z :=
  (transactionId p, orderId p, userId p, enrollmentId p, amount p, createdAt p).

(** The two unique indexes of the Payment schema. *)
Definition unique_ids (s : Store) : Prop :=
  NoDup (transactionId <$> payments s) /\ NoDup (orderId <$> payments s).

(** The order id [createTransaction] builds: userId, a dash, and the
    clock's next reading. *)
Definition next_orderId (env : Env) (request : TransactionRequest)
    (w : World) : string :=
  req_userId request ++ "-" ++ pretty (clock env (ticks w)).

(** ** The transaction service (services/transaction.service.ts) *)

(** [TransactionData]; [snapToken] is read from [midtransToken], which
    none of the services writes, and is left out. *)
Record TransactionData : Type := mkTransactionData {
  td_transactionId : string;
  td_orderId : string;
  td_userId : string;
  td_amount : Z;
  td_status : PaymentStatus;
  td_paymentMethod : string;
  td_redirectUrl : option string;
  td_createdAt : Z;
  td_paidAt : option Z;
  td_expiresAt : Z
}.

Record PaymentHistory : Type := mkPaymentHistory {
  ph_transactionId : string;
  ph_orderId : string;
  ph_amount : Z;
  ph_status : PaymentStatus;
  ph_paymentMethod : string;
  ph_createdAt : Z;
  ph_paidAt : option Z
}.

(** The mapping from a Payment document to [TransactionData]; the expiry
    is assumed to be 24 hours after [createdAt]. *)
Definition toTransactionData (p : Payment) : TransactionData :=
  mkTransactionData (transactionId p) (orderId p) (userId p) (amount p)
    (status p) (paymentMethod p) (redirectUrl p) (createdAt p) (paidAt p)
    (createdAt p + 24 * 60 * 60 * 1000).

Definition toPaymentHistory (p : Payment) : PaymentHistory :=
  mkPaymentHistory (transactionId p) (orderId p) (amount p) (status p)
    (paymentMethod p) (createdAt p) (paidAt p).

(** [getTransaction(transactionId)]: every error is caught and answered
    with [null]. *)
Definition getTransaction (tid : string) : M (option TransactionData) :=
  try_catch
    (found ← Payment_findOne false (verify_filter tid);
     mret (toTransactionData ∘ snd <$> found))
    (fun _ => mret None).

(** sort({ createdAt: -1 }): newest first. *)
Definition newest_first (p q : Payment) : Prop := createdAt q <= createdAt p.

#[global] Instance newest_first_dec p q : Decision (newest_first p q).
Proof. unfold newest_first. solve_decision. Defined.

(** limit(n): a limit of 0 means no limit. *)
Definition apply_limit {A} (limit : nat) (l : list A) : list A :=
  match limit with
  | O => l
  | S _ => take limit l
  end.

(** [Payment.find(filter).sort({ createdAt: -1 }).limit(limit)] *)
Definition Payment_find_newest (P : Payment -> Prop)
    `{!forall p, Decision (P p)} (limit : nat) : M (list Payment) :=
  store_op ;;
  s ← read_view false;
  mret (apply_limit limit (merge_sort newest_first (filter P (payments s)))).

(** { userId } *)
Definition user_filter (uid : string) (p : Payment) : Prop := userId p = uid.

#[global] Instance user_filter_dec uid p : Decision (user_filter uid p).
Proof. unfold user_filter. solve_decision. Defined.

(** { status } *)
Definition status_filter (st : PaymentStatus) (p : Payment) : Prop :=
  status p = st.

#[global] Instance status_filter_dec st p : Decision (status_filter st p).
Proof. unfold status_filter. solve_decision. Defined.

(** [getUserTransactions(userId, limit)]; its [catch] logs and rethrows. *)
Definition getUserTransactions (uid : string) (limit : nat)
    : M (list PaymentHistory) :=
  ps ← Payment_find_newest (user_filter uid) limit;
  mret (toPaymentHistory <$> ps).

(** [getTransactionsByStatus(status, limit)] *)
Definition getTransactionsByStatus (st : PaymentStatus) (limit : nat)
    : M (list PaymentHistory) :=
  ps ← Payment_find_newest (status_filter st) limit;
  mret (toPaymentHistory <$> ps).

(** Integers up to this bound in absolute value are doubles, and add
    exactly as doubles while their sum stays within it. *)
Definition exact_bound : Z := 2 ^ 53.

(** $sum: '$amount'.  The stored amounts are doubles and $sum adds them
    as doubles.  Amounts are integers in this model and are not negative
    by the schema (min: 0); as long as their sum does not exceed 2^53,
    every partial sum, in whatever order, is an integer a double holds
    exactly, and the result is the exact sum.  Beyond that the result
    depends on rounding, which this model does not describe: [None]. *)
Definition sum_amounts (ps : list Payment) : option Z :=
  let s := foldr (fun p acc => amount p + acc) 0 ps in
  if bool_decide (Forall (fun p => 0 <= amount p) ps) && (s <=? exact_bound)%Z
  then Some s
  else None.

(** The fields of [PaymentStatistics] the aggregation computes;
    [totalRevenue] is known where the sum of doubles is exact (see
    [sum_amounts]).  The two quotients derived from these fields
    afterwards (average amount and success rate) are floating-point
    numbers and are left out. *)
Record PaymentStatistics : Type := mkPaymentStatistics {
  totalRevenue : option Z;
  totalTransactions : nat;
  successfulTransactions : nat;
  pendingTransactions : nat;
  failedTransactions : nat
}.

(** $sum: { $cond: [test, 1, 0] } *)
Definition count_if (test : Payment -> bool) (ps : list Payment) : nat :=
  length (filter (fun p => Is_true (test p)) ps).

(** $in: ['$status', values] on the stored status string. *)
Definition status_in (status_value : PaymentStatus -> string)
    (values : list string) (p : Payment) : bool :=
  bool_decide (status_value (status p) ∈ values).

(** The $group stage of [getStatistics]: one document for a non-empty
    collection, none for an empty one.  [status_value] gives the string a
    status is stored as (the enum's values are not part of the sources). *)
Definition aggregate_statistics (status_value : PaymentStatus -> string)
    (ps : list Payment) : list PaymentStatistics :=
  match ps with
  | [] => []
  | _ =>
      [mkPaymentStatistics
         (sum_amounts ps)
         (length ps)
         (count_if (status_in status_value ["settlement"; "capture"]) ps)
         (count_if (status_in status_value ["pending"]) ps)
         (count_if (status_in status_value ["deny"; "cancel"; "expire"; "failed"]) ps)]
  end.

(** [getStatistics()]: stats[0], or all zeros. *)
Definition getStatistics (status_value : PaymentStatus -> string)
    : M PaymentStatistics :=
  store_op ;;
  s ← read_view false;
  mret (default (mkPaymentStatistics (Some 0) 0 0 0 0)
          (head (aggregate_statistics status_value (payments s)))).

(** ** Pagination (the legacy payment service and utils/response) *)

(** [Math.ceil(total / limit)] on non-negative integers, [limit] positive. *)
Definition Math_ceil_div (total limit : Z) : Z := - ((- total) / limit).

(** The window of [getStudentPayments] for a page number from 1 on:
    skip = (page - 1) * limit, then .skip(skip).limit(limit), over the
    sorted documents the query matches. *)
Definition page_window {A} (page limit : nat) (matches : list A) : list A :=
  take limit (drop ((page - 1) * limit) matches).

(** The pagination block returned next to the items. *)
Record Pagination : Type := mkPagination {
  pg_total : Z;
  pg_page : Z;
  pg_limit : Z;
  pg_pages : Z
}.

(** [paginatedResponse(items, total, page, limit)] without its timestamp. *)
Definition paginatedResponse {A} (items : list A) (total page limit : Z)
    : list A * Pagination :=
  (items, mkPagination total page limit (Math_ceil_div total limit)).

(** The gateway is down: every operation throws. *)
Definition gateway_down_env : Env :=
  mkEnv (clock sample_env) (uuid_gen sample_env)
        (validateTransactionRequest sample_env)
        (fun _ _ => None) (fun _ => None)
        (fun _ => false) (fun _ => false) (fun _ _ _ => false).


(** A gateway that reports every transaction as refunded. *)
Definition refund_env : Env :=
  mkEnv (clock sample_env) (uuid_gen sample_env)
        (validateTransactionRequest sample_env)
        (snap_createTransaction sample_env)
        (fun t => Some (mkStatusResult t "refund" None None 150000 None))
        (fun _ => true) (fun _ => true) (fun _ _ _ => true).

Definition refund_payload : WebhookPayload :=
  mkWebhookPayload (Some "u1-1700000060000") "refund" None None None.

(** ** Symbolic execution of the service code *)

Ltac unfold_service :=
  unfold createTransaction, createTransaction_body, verifyPayment,
    processWebhook, processWebhook_body, webhook_enrollment,
    cancelTransaction, expireTransaction, refundTransaction,
    snapClient_createTransaction, coreApi_status, coreApi_cancel,
    coreApi_expire, coreApi_refund,
    commitTransaction, apply_session, startTransaction, abortTransaction,
    Payment_findOne, Payment_save, Payment_insert, Payment_findOneAndUpdate,
    Enrollment_findById, Enrollment_save, Enrollment_findByIdAndUpdate,
    read_view, write_view, view, store_op, Date_now, uuidv4, gateway,
    try_catch, throw, mbind, M_bind, bind, mret, M_ret, ret,
    with_store, with_session, with_faults, with_ticks, with_uuids,
    with_writes, with_gwlog in *.

#[local] Arguments list_find : simpl never.

Ltac exec :=
  unfold_service;
  repeat first [ progress cbn in * | progress simplify_eq
               | case_bool_decide | case_match ].

(** ** Basic facts *)

Lemma settles_cancels_disjoint s : settles s = true -> cancels s = false.
Proof. destruct s; reflexivity || discriminate. Qed.

Lemma spec_payment_update_status st pt now p :
  status (spec_payment_update st pt now p) = st.
Proof. unfold spec_payment_update. destruct (settles st); reflexivity. Qed.

Lemma spec_payment_update_ids st pt now p :
  transactionId (spec_payment_update st pt now p) = transactionId p /\
  orderId (spec_payment_update st pt now p) = orderId p /\
  enrollmentId (spec_payment_update st pt now p) = enrollmentId p.
Proof. unfold spec_payment_update. destruct (settles st); auto. Qed.

(** Replacing the document a query finds by one that still matches leaves
    the query's answer at the same position. *)
Lemma list_find_update (P : Payment -> Prop) `{!forall p, Decision (P p)}
    (l : list Payment) i p p' :
  list_find P l = Some (i, p) -> P p' ->
  list_find P (<[i:=p']> l) = Some (i, p').
Proof.
  intros Hf HP. apply list_find_Some in Hf as (Hl & _ & Hmin).
  apply list_find_insert_Some. right; left.
  split_and!; eauto using lookup_lt_Some.
Qed.

Lemma webhook_filter_update payload st pt now p :
  webhook_filter payload p ->
  webhook_filter payload (spec_payment_update st pt now p).
Proof.
  unfold webhook_filter.
  destruct (spec_payment_update_ids st pt now p) as (-> & -> & _). auto.
Qed.

Lemma verify_filter_update tid st pt now p :
  verify_filter tid p -> verify_filter tid (spec_payment_update st pt now p).
Proof.
  unfold verify_filter.
  destruct (spec_payment_update_ids st pt now p) as (-> & -> & _). auto.
Qed.

(** ** processWebhook *)

(** The complete outcome of one webhook call. *)
Lemma processWebhook_cases env payload w :
  let newStatus := webhook_status payload in
  let r := processWebhook env payload w in
  session (snd r) = None /\
  ( (fst r = Err StoreError /\ store (snd r) = store w /\ faults w <> [])
    \/ (fst r = Err (NotFoundError (not_found_message payload))
          /\ store (snd r) = store w
          /\ writes (snd r) = writes w
          /\ list_find (webhook_filter payload) (payments (store w)) = None)
    \/ (exists i p,
          list_find (webhook_filter payload) (payments (store w)) = Some (i, p)
          /\ status p = newStatus /\ fst r = Ok newStatus
          /\ store (snd r) = store w /\ writes (snd r) = writes w)
    \/ (exists i p,
          list_find (webhook_filter payload) (payments (store w)) = Some (i, p)
          /\ status p <> newStatus /\ fst r = Ok newStatus
          /\ store (snd r) =
               mkStore (<[i := spec_payment_update newStatus
                                 (wh_payment_type payload)
                                 (clock env (ticks w)) p]> (payments (store w)))
                       (spec_enrollment_update newStatus (enrollmentId p)
                          (enrollments (store w))))).
Proof.
  intros newStatus r. subst r newStatus. unfold webhook_status.
  destruct w as [[ps es] ses fs tk uu wr gl].
  exec.
  all: split; [reflexivity|].
  all: try (left; split_and!; [reflexivity..|by destruct fs as [|? [|? [|? [|? [|? ?]]]]]]).
  all: try (right; left; split_and!; first [eassumption|reflexivity]).
  all: try (right; right; left; do 2 eexists; split_and!;
              [eassumption|assumption|reflexivity..]).
  all: right; right; right; do 2 eexists; split_and!;
         [eassumption|assumption|reflexivity|].
  all: unfold spec_payment_update, spec_enrollment_update; cbn.
  all: repeat match goal with H : _ = _ |- _ => rewrite H end; cbn; try reflexivity.
  all: first [by case_bool_decide | by case_match].
Qed.

(** Redelivery: when the stored status already equals the mapped one the
    call issues no write at all. *)
Lemma processWebhook_noop env payload w i p :
  list_find (webhook_filter payload) (payments (store w)) = Some (i, p) ->
  status p = webhook_status payload ->
  let r := processWebhook env payload w in
  store (snd r) = store w /\ writes (snd r) = writes w /\
  (fst r = Ok (webhook_status payload)
   \/ (fst r = Err StoreError /\ faults w <> [])).
Proof.
  intros Hf Hs r. subst r. unfold webhook_status in *.
  destruct w as [[ps es] ses fs tk uu wr gl].
  exec; split_and!; try reflexivity; auto.
  all: right; split; [reflexivity|by destruct fs as [|? [|? ?]]].
Qed.

(** A notification matching no Payment is refused and writes nothing. *)
Lemma processWebhook_not_found env payload w :
  list_find (webhook_filter payload) (payments (store w)) = None ->
  let r := processWebhook env payload w in
  store (snd r) = store w /\ writes (snd r) = writes w /\
  (fst r = Err (NotFoundError (not_found_message payload))
   \/ (fst r = Err StoreError /\ faults w <> [])).
Proof.
  intros Hf r. subst r.
  destruct w as [[ps es] ses fs tk uu wr gl].
  exec; split_and!; try reflexivity; eauto.
  right; split; [reflexivity|by destruct fs].
Qed.

(** A fault-free webhook call for a known Payment succeeds. *)
Lemma processWebhook_succeeds env payload w i p :
  list_find (webhook_filter payload) (payments (store w)) = Some (i, p) ->
  faults w = [] ->
  fst (processWebhook env payload w) = Ok (webhook_status payload).
Proof.
  intros Hf Hfs.
  destruct (processWebhook_cases env payload w)
    as (_ & [(_ & _ & ?)|[(_ & _ & _ & ?)|[(? & ? & _ & _ & ? & _)|(? & ? & _ & _ & ? & _)]]]);
    done || congruence.
Qed.

(** The guard of [processWebhook]: a notification that does not settle
    never changes an Enrollment that is not in pending_payment, so an
    active or completed Enrollment is never moved to cancelled. *)
Lemma processWebhook_guarded_cancel env payload w eid e :
  settles (webhook_status payload) = false ->
  enrollments (store w) !! eid = Some e ->
  enr_status e <> pending_payment ->
  enrollments (store (snd (processWebhook env payload w))) !! eid = Some e.
Proof.
  intros Hset He Hne.
  destruct (processWebhook_cases env payload w) as (_ & Hcases).
  destruct Hcases as [(_ & -> & _)|[(_ & -> & _)|[(? & ? & _ & _ & _ & -> & _)
                                               |(i & p & _ & _ & _ & ->)]]];
    try done.
  cbn. unfold spec_enrollment_update. rewrite Hset.
  destruct (enrollments (store w) !! enrollmentId p) as [e'|] eqn:He'; [|done].
  destruct (cancels (webhook_status payload)); [|done].
  cbn. case_bool_decide; [|done].
  rewrite lookup_insert_ne; [done|]. intros <-. congruence.
Qed.

(** ** verifyPayment *)

(** Once the stored status equals the mapped one, [verifyPayment] issues
    no write, whatever the fault schedule. *)
Lemma verifyPayment_noop env tid w result i p :
  core_status env tid = Some result ->
  list_find (verify_filter tid) (payments (store w)) = Some (i, p) ->
  status p = mapMidtransStatus (transaction_status result) (fraud_status result) ->
  let r := verifyPayment env tid w in
  store (snd r) = store w /\ writes (snd r) = writes w.
Proof.
  intros Hg Hf Hs r. subst r.
  destruct w as [[ps es] ses fs tk uu wr gl].
  exec; split; reflexivity.
Qed.

(** A successful [verifyPayment] whose mapped status settles and differs
    from the stored one updates the Payment and activates the
    Enrollment. *)
Lemma verifyPayment_settles env tid w result i p e resp :
  core_status env tid = Some result ->
  let st := mapMidtransStatus (transaction_status result) (fraud_status result) in
  settles st = true ->
  list_find (verify_filter tid) (payments (store w)) = Some (i, p) ->
  status p <> st ->
  enrollments (store w) !! enrollmentId p = Some e ->
  fst (verifyPayment env tid w) = Ok resp ->
  store (snd (verifyPayment env tid w)) =
    mkStore (<[i := spec_payment_update st (payment_type result)
                      (verify_paid_time env result w) p]> (payments (store w)))
            (<[enrollmentId p := activate e]> (enrollments (store w))) /\
  writes (snd (verifyPayment env tid w)) = S (S (writes w)).
Proof.
  intros Hg st Hst Hf Hs He. subst st.
  unfold spec_payment_update, verify_paid_time. rewrite Hst.
  destruct w as [[ps es] ses fs tk uu wr gl].
  exec; intros; simplify_eq; done.
Qed.

(** A failing [verifyPayment] leaves the Payment collection as it was. *)
Lemma verifyPayment_failure_payments env tid w :
  is_Ok (fst (verifyPayment env tid w)) = false ->
  payments (store (snd (verifyPayment env tid w))) = payments (store w).
Proof.
  destruct w as [[ps es] ses fs tk uu wr gl].
  exec; intros; simplify_eq; done.
Qed.

(** ** cancelTransaction, expireTransaction, refundTransaction *)

(** A failing cancel, expire or refund has written nothing: the only store
    write of each is its last step. *)
Lemma admin_ops_failure env tid amt reason w :
  (is_Ok (fst (cancelTransaction env tid w)) = false ->
   store (snd (cancelTransaction env tid w)) = store w) /\
  (is_Ok (fst (expireTransaction env tid w)) = false ->
   store (snd (expireTransaction env tid w)) = store w) /\
  (is_Ok (fst (refundTransaction env tid amt reason w)) = false ->
   store (snd (refundTransaction env tid amt reason w)) = store w).
Proof.
  destruct w as [[ps es] ses fs tk uu wr gl].
  split_and!; exec; intros; simplify_eq; done.
Qed.

(** ** createTransaction *)

(** The amount check agrees with [isPaymentEligible]. *)
Lemma validateAmount_valid a :
  amount_valid (validateAmount a) = isPaymentEligible a.
Proof.
  unfold validateAmount, isPaymentEligible.
  repeat case_match; simpl; lia.
Qed.

(** ** Claims *)

(** C8. The status mapper reproduces the mapping table: "settlement" gives
    SETTLEMENT, "capture" with fraud status "accept" gives CAPTURE,
    "pending" PENDING, "deny" DENY, "cancel" CANCEL, "expire" EXPIRE,
    "refund" REFUND, "partial_refund" PARTIAL_REFUND, and every gateway
    status outside the table gives FAILED.  Being a function of its two
    arguments, the mapper is deterministic and has no effect. *)
Theorem mapMidtransStatus_table :
  (forall f, mapMidtransStatus "settlement" f = SETTLEMENT) /\
  mapMidtransStatus "capture" (Some "accept") = CAPTURE /\
  (forall f, mapMidtransStatus "pending" f = PENDING) /\
  (forall f, mapMidtransStatus "deny" f = DENY) /\
  (forall f, mapMidtransStatus "cancel" f = CANCEL) /\
  (forall f, mapMidtransStatus "expire" f = EXPIRE) /\
  (forall f, mapMidtransStatus "refund" f = REFUND) /\
  (forall f, mapMidtransStatus "partial_refund" f = PARTIAL_REFUND) /\
  (forall s f, s ∉ known_gateway_statuses -> mapMidtransStatus s f = FAILED).
Proof.
  split_and!; try reflexivity.
  intros s f Hs. unfold mapMidtransStatus, known_gateway_statuses in *.
  repeat match goal with
         | |- context [String.eqb s ?k] =>
             destruct (String.eqb_spec s k) as [->|_];
             [exfalso; apply Hs; set_solver|]
         end.
  reflexivity.
Qed.

Lemma mapMidtransStatus_table_witness :
  ("unknown_code" ∉ known_gateway_statuses) /\
  mapMidtransStatus "unknown_code" None = FAILED.
Proof.
  assert (H : "unknown_code" ∉ known_gateway_statuses).
  { unfold known_gateway_statuses. intros Hin.
    repeat (apply elem_of_cons in Hin as [Hin|Hin]; [discriminate Hin|]).
    by apply elem_of_nil in Hin. }
  split; [exact H|].
  exact (proj2 (proj2 (proj2 (proj2 (proj2 (proj2 (proj2 (proj2
           mapMidtransStatus_table))))))) "unknown_code" None H).
Defined.

(** C6. createTransaction rejects with a ValidationError every request
    whose amount is below 1000 or above 999999999, or whose metadata has
    no (or an empty) enrollmentId; on such a rejection the store is as
    before, no document write was issued and the gateway was not called. *)
Theorem createTransaction_rejects env request w :
  (req_amount request < 1000 \/ 999999999 < req_amount request \/
   truthy_str (req_metadata request ≫= md_enrollmentId) = false) ->
  let r := createTransaction env request w in
  (exists msg, fst r = Err (ValidationError msg)) /\
  store (snd r) = store w /\
  writes (snd r) = writes w /\
  gwlog (snd r) = gwlog w /\
  session (snd r) = None.
Proof.
  intros Hbad r. subst r.
  assert (Hcase : amount_valid (validateAmount (req_amount request)) = false
                  \/ truthy_str (req_metadata request ≫= md_enrollmentId) = false).
  { rewrite validateAmount_valid. unfold isPaymentEligible.
    destruct Hbad as [?|[?|?]]; [left; lia..|by right]. }
  clear Hbad. destruct w as [[ps es] ses fs tk uu wr gl].
  exec; split_and!; eauto.
  all: exfalso; destruct Hcase as [Hc|Hc]; rewrite Hc in *; done.
Qed.

Lemma createTransaction_rejects_witness :
  let request := mkTransactionRequest "u1" 500 (Some (mkMetadata (Some "E1"))) in
  let r := createTransaction sample_env request sample_world in
  (exists msg, fst r = Err (ValidationError msg)) /\
  store (snd r) = store sample_world /\
  writes (snd r) = writes sample_world /\
  gwlog (snd r) = gwlog sample_world /\
  session (snd r) = None.
Proof.
  apply (createTransaction_rejects sample_env
           (mkTransactionRequest "u1" 500 (Some (mkMetadata (Some "E1"))))
           sample_world).
  left. simpl. lia.
Defined.

(** C7. After a createTransaction call that succeeds, the Payment
    collection is the one before plus exactly one new document; that
    document is PENDING, carries the returned transactionId and orderId,
    which no earlier Payment carries, and the returned expiresAt is the
    time of creation, read from the clock when the transaction is built,
    plus one hour (the document's createdAt is the next reading of the
    clock, taken after the gateway answered).  Enrollments are
    untouched. *)
Theorem createTransaction_creates env request w r w' :
  createTransaction env request w = (Ok r, w') ->
  exists p,
    payments (store w') = (payments (store w) ++ [p])%list /\
    enrollments (store w') = enrollments (store w) /\
    status p = PENDING /\
    transactionId p = cp_transactionId r /\
    orderId p = cp_orderId r /\
    Some (enrollmentId p) = req_metadata request ≫= md_enrollmentId /\
    (forall q, q ∈ payments (store w) ->
       transactionId q <> transactionId p /\ orderId q <> orderId p) /\
    cp_expiresAt r = clock env (S (ticks w)) + 60 * 60 * 1000 /\
    createdAt p = clock env (S (S (ticks w))).
Proof.
  destruct w as [[ps es] ses fs tk uu wr gl].
  intros Hrun. exec.
  eexists. split_and!; try reflexivity.
  - cbn. by destruct (option_bind _ _ _ _).
  - intros q Hq.
    match goal with
    | H : list_find _ _ = None |- _ =>
        apply list_find_None in H; rewrite Forall_forall in H;
        specialize (H q Hq); unfold clashes in H; cbn in H
    end.
    tauto.
Qed.

Lemma createTransaction_creates_witness :
  let res := createTransaction sample_env sample_request busy_world in
  exists r, fst res = Ok r /\
  exists p,
    payments (store (snd res)) = (payments (store busy_world) ++ [p])%list /\
    enrollments (store (snd res)) = enrollments (store busy_world) /\
    status p = PENDING /\
    transactionId p = cp_transactionId r /\
    orderId p = cp_orderId r /\
    Some (enrollmentId p) = req_metadata sample_request ≫= md_enrollmentId /\
    (forall q, q ∈ payments (store busy_world) ->
       transactionId q <> transactionId p /\ orderId q <> orderId p) /\
    cp_expiresAt r = clock sample_env (S (ticks busy_world)) + 60 * 60 * 1000 /\
    createdAt p = clock sample_env (S (S (ticks busy_world))).
Proof.
  eexists. split; [vm_compute; reflexivity|].
  apply (createTransaction_creates sample_env sample_request busy_world).
  vm_compute. reflexivity.
Defined.

(** C10. cancelTransaction, expireTransaction and refundTransaction select
    the Payment by transactionId alone.  When no Payment has the given
    transactionId (whatever the orderIds are), the gateway operation is
    still issued, the store is as before and no write is issued; when the
    gateway accepts the operation and the store answers, the call
    succeeds. *)
Theorem admin_ops_unknown_transactionId env tid amt reason w :
  Forall (fun p => transactionId p <> tid) (payments (store w)) ->
  let rc := cancelTransaction env tid w in
  let re := expireTransaction env tid w in
  let rr := refundTransaction env tid amt reason w in
  let a := refund_amount_param amt in
  let rs := refund_reason_param reason in
  (store (snd rc) = store w /\ writes (snd rc) = writes w /\
   gwlog (snd rc) = GwCancel tid :: gwlog w /\
   (core_cancel env tid = true -> next_fault (faults w) = false ->
    fst rc = Ok tt)) /\
  (store (snd re) = store w /\ writes (snd re) = writes w /\
   gwlog (snd re) = GwExpire tid :: gwlog w /\
   (core_expire env tid = true -> next_fault (faults w) = false ->
    fst re = Ok tt)) /\
  (store (snd rr) = store w /\ writes (snd rr) = writes w /\
   gwlog (snd rr) = GwRefund tid a rs :: gwlog w /\
   (core_refund env tid a rs = true -> next_fault (faults w) = false ->
    fst rr = Ok tt)).
Proof.
  intros Hno rc re rr a rs. subst rc re rr a rs.
  assert (Hf : list_find (tid_filter tid) (payments (store w)) = None)
    by by apply list_find_None.
  clear Hno. unfold refund_amount_param, refund_reason_param.
  destruct w as [[ps es] ses fs tk uu wr gl].
  split_and!; exec; try reflexivity; intros; simplify_eq; done.
Qed.

Lemma admin_ops_unknown_transactionId_witness :
  let tid := "u1-1700000000000" in
  let w := orphan_world in
  let rc := cancelTransaction sample_env tid w in
  let re := expireTransaction sample_env tid w in
  let rr := refundTransaction sample_env tid (Some 5000) None w in
  let a := refund_amount_param (Some 5000) in
  let rs := refund_reason_param None in
  (store (snd rc) = store w /\ writes (snd rc) = writes w /\
   gwlog (snd rc) = GwCancel tid :: gwlog w /\
   (core_cancel sample_env tid = true -> next_fault (faults w) = false ->
    fst rc = Ok tt)) /\
  (store (snd re) = store w /\ writes (snd re) = writes w /\
   gwlog (snd re) = GwExpire tid :: gwlog w /\
   (core_expire sample_env tid = true -> next_fault (faults w) = false ->
    fst re = Ok tt)) /\
  (store (snd rr) = store w /\ writes (snd rr) = writes w /\
   gwlog (snd rr) = GwRefund tid a rs :: gwlog w /\
   (core_refund sample_env tid a rs = true -> next_fault (faults w) = false ->
    fst rr = Ok tt)).
Proof.
  apply (admin_ops_unknown_transactionId sample_env "u1-1700000000000"
           (Some 5000) None orphan_world).
  repeat constructor. discriminate.
Defined.

(** C3. processWebhook applies the Payment mutation (status,
    paymentMethod, paidAt) and the resulting Enrollment mutation as one
    unit: a call that fails leaves the committed store exactly as before
    the call; a call that succeeds either found the status already stored
    and changed nothing, or committed both mutations together. *)
Theorem processWebhook_atomic env payload w :
  let newStatus := webhook_status payload in
  let r := processWebhook env payload w in
  session (snd r) = None /\
  match fst r with
  | Err _ => store (snd r) = store w
  | Ok s =>
      s = newStatus /\
      exists i p,
        list_find (webhook_filter payload) (payments (store w)) = Some (i, p) /\
        ((status p = newStatus /\ store (snd r) = store w) \/
         (status p <> newStatus /\
          store (snd r) =
            mkStore (<[i := spec_payment_update newStatus
                              (wh_payment_type payload)
                              (clock env (ticks w)) p]> (payments (store w)))
                    (spec_enrollment_update newStatus (enrollmentId p)
                       (enrollments (store w)))))
  end.
Proof.
  intros newStatus r.
  destruct (processWebhook_cases env payload w) as (Hses & Hcases).
  fold r in Hses, Hcases. fold newStatus in Hcases.
  split; [exact Hses|].
  destruct Hcases as [(-> & ? & _)|[(-> & ? & _)|[(i & p & ? & ? & -> & ? & _)
                                                 |(i & p & ? & ? & -> & ?)]]];
    eauto 10.
Qed.

(** C9, as stated, fails on a redelivered notification: when the stored
    Payment status already equals the mapped SETTLEMENT, processWebhook
    returns success at its short-circuit and the linked Enrollment, here
    completed with progress 100, is not moved to active and its progress
    is not reset. *)
Lemma processWebhook_redelivery_keeps_enrollment :
  let r := processWebhook sample_env settled_payload redelivery_world in
  webhook_status settled_payload = SETTLEMENT /\
  list_find (webhook_filter settled_payload)
            (payments (store redelivery_world)) = Some (0%nat, settled_payment) /\
  enrollments (store redelivery_world) !! enrollmentId settled_payment
    = Some completed_enrollment /\
  fst r = Ok SETTLEMENT /\
  enrollments (store (snd r)) !! enrollmentId settled_payment
    = Some completed_enrollment /\
  enr_status completed_enrollment = completed /\
  progress completed_enrollment = 100 /\
  Some completed_enrollment <> Some (activate completed_enrollment).
Proof.
  cbv zeta. split_and!; try (vm_compute; reflexivity). discriminate.
Qed.

(** C9, amended. In processWebhook, when the mapped status is SETTLEMENT or
    CAPTURE and differs from the stored Payment status, so that the status
    update is applied, the linked Enrollment becomes active with progress
    0 whatever its current status is, completed and cancelled included. *)
Theorem processWebhook_activates_any_status env payload w i p e :
  settles (webhook_status payload) = true ->
  list_find (webhook_filter payload) (payments (store w)) = Some (i, p) ->
  status p <> webhook_status payload ->
  enrollments (store w) !! enrollmentId p = Some e ->
  faults w = [] ->
  let r := processWebhook env payload w in
  fst r = Ok (webhook_status payload) /\
  enrollments (store (snd r)) !! enrollmentId p = Some (activate e) /\
  enr_status (activate e) = active /\
  progress (activate e) = 0.
Proof.
  intros Hset Hf Hne He Hfs r.
  destruct (processWebhook_cases env payload w) as (_ & Hcases).
  fold r in Hcases.
  destruct Hcases as [(_ & _ & ?)|[(_ & _ & _ & ?)|[(i' & p' & ? & ? & _)
                                                   |(i' & p' & ? & _ & ? & Hst)]]];
    try congruence.
  assert (p' = p) by congruence. subst p'.
  split_and!; try done.
  rewrite Hst. cbn. unfold spec_enrollment_update. rewrite He, Hset.
  apply lookup_insert_eq.
Qed.

Lemma processWebhook_activates_any_status_witness :
  let r := processWebhook sample_env settled_payload completed_world in
  fst r = Ok (webhook_status settled_payload) /\
  enrollments (store (snd r)) !! enrollmentId orphan_payment
    = Some (activate completed_enrollment) /\
  enr_status (activate completed_enrollment) = active /\
  progress (activate completed_enrollment) = 0.
Proof.
  apply (processWebhook_activates_any_status sample_env settled_payload
           completed_world 0%nat orphan_payment completed_enrollment);
    first [reflexivity | discriminate].
Defined.

(** C2. processWebhook is idempotent.  After a call that took effect or
    was refused as unknown, a second call with the same payload leaves the
    store as the first one left it and issues no write, whatever happens
    to the store during it, and without store failure it returns what the
    first call returned.  In particular, when the stored status already
    equals the mapped one, the call changes nothing, issues no write and,
    unless the store fails, returns success. *)
Theorem processWebhook_idempotent env payload w fs :
  let r1 := processWebhook env payload w in
  let r2 := processWebhook env payload (with_faults fs (snd r1)) in
  (fst r1 <> Err StoreError ->
   store (snd r2) = store (snd r1) /\
   writes (snd r2) = writes (snd r1) /\
   (fs = [] -> fst r2 = fst r1)) /\
  (forall i p,
     list_find (webhook_filter payload) (payments (store w)) = Some (i, p) ->
     status p = webhook_status payload ->
     store (snd r1) = store w /\ writes (snd r1) = writes w /\
     (faults w = [] -> fst r1 = Ok (webhook_status payload))).
Proof.
  intros r1 r2. split.
  - intros Hok.
    destruct (processWebhook_cases env payload w) as (_ & Hcases).
    fold r1 in Hcases.
    destruct Hcases as [(? & _)|[(Hr & Hst & _ & Hf)|[(i & p & Hf & Hs & Hr & Hst & _)
                                                   |(i & p & Hf & Hs & Hr & Hst)]]];
      [congruence| | |].
    + destruct (processWebhook_not_found env payload (with_faults fs (snd r1)))
        as (? & ? & Hres); [cbn; by rewrite Hst|].
      fold r2 in Hres |- *. split_and!; [done..|].
      intros ->. destruct Hres as [?|[_ ?]]; [congruence|done].
    + destruct (processWebhook_noop env payload (with_faults fs (snd r1)) i p)
        as (? & ? & Hres); [cbn; by rewrite Hst|done|].
      fold r2 in Hres |- *. split_and!; [done..|].
      intros ->. destruct Hres as [?|[_ ?]]; [congruence|done].
    + destruct (processWebhook_noop env payload (with_faults fs (snd r1)) i
                  (spec_payment_update (webhook_status payload)
                     (wh_payment_type payload) (clock env (ticks w)) p))
        as (? & ? & Hres).
      { cbn. rewrite Hst. cbn. apply (list_find_update _ _ _ p); [done|].
        apply webhook_filter_update.
        by pose proof (proj1 (list_find_Some _ _ _ _) Hf) as (_ & ? & _). }
      { apply spec_payment_update_status. }
      fold r2 in Hres |- *. split_and!; [done..|].
      intros ->. destruct Hres as [?|[_ ?]]; [congruence|done].
  - intros i p Hf Hs.
    destruct (processWebhook_noop env payload w i p Hf Hs) as (? & ? & Hres).
    fold r1 in Hres |- *. split_and!; [done..|].
    intros Hfs. destruct Hres as [?|[_ ?]]; done.
Qed.

Lemma processWebhook_idempotent_witness :
  let r1 := processWebhook sample_env settled_payload orphan_world in
  let r2 := processWebhook sample_env settled_payload (with_faults [] (snd r1)) in
  let r := processWebhook sample_env settled_payload settled_world in
  (store (snd r2) = store (snd r1) /\
   writes (snd r2) = writes (snd r1) /\
   fst r2 = fst r1) /\
  (store (snd r) = store settled_world /\
   writes (snd r) = writes settled_world /\
   fst r = Ok (webhook_status settled_payload)).
Proof.
  split.
  - destruct (processWebhook_idempotent sample_env settled_payload
                orphan_world []) as [H _].
    destruct H as (H1 & H2 & H3); [vm_compute; discriminate|].
    split_and!; [exact H1|exact H2|exact (H3 eq_refl)].
  - destruct (processWebhook_idempotent sample_env settled_payload
                settled_world []) as [_ H].
    destruct (H 0%nat settled_payment) as (H1 & H2 & H3);
      [reflexivity|reflexivity|].
    split_and!; [exact H1|exact H2|exact (H3 eq_refl)].
Defined.

(** Repeated verification of a Payment whose stored status already equals
    the gateway's mapped status never writes. *)
Lemma verifyPayment_times_noop env tid result n : forall w i p,
  core_status env tid = Some result ->
  list_find (verify_filter tid) (payments (store w)) = Some (i, p) ->
  status p = mapMidtransStatus (transaction_status result) (fraud_status result) ->
  store (verifyPayment_times env n tid w) = store w /\
  writes (verifyPayment_times env n tid w) = writes w.
Proof.
  induction n as [|n IH]; intros w i p Hg Hf Hs; [done|].
  cbn [verifyPayment_times].
  destruct (verifyPayment_noop env tid w result i p Hg Hf Hs) as (Hst & Hwr).
  destruct (IH (snd (verifyPayment env tid w)) i p Hg) as (-> & ->);
    [by rewrite Hst|done|done].
Qed.

(** C5. verifyPayment on a transaction the gateway reports as
    "settlement": the first successful call moves the owning Enrollment
    from pending_payment to active with progress 0 and stores SETTLEMENT
    on the Payment, with one Enrollment write and one Payment write; any
    number of calls in a row leaves the store and the number of writes
    issued exactly as the first call left them. *)
Theorem verifyPayment_settlement_once env tid w result i p e resp n :
  core_status env tid = Some result ->
  transaction_status result = "settlement" ->
  list_find (verify_filter tid) (payments (store w)) = Some (i, p) ->
  status p <> SETTLEMENT ->
  enrollments (store w) !! enrollmentId p = Some e ->
  enr_status e = pending_payment ->
  fst (verifyPayment env tid w) = Ok resp ->
  (1 <= n)%nat ->
  let w1 := snd (verifyPayment env tid w) in
  let wn := verifyPayment_times env n tid w in
  (exists e', enrollments (store w1) !! enrollmentId p = Some e' /\
              enr_status e' = active /\ progress e' = 0) /\
  (exists p', payments (store w1) !! i = Some p' /\ status p' = SETTLEMENT) /\
  writes w1 = S (S (writes w)) /\
  store wn = store w1 /\
  writes wn = writes w1.
Proof.
  intros Hg Hts Hf Hne He Hpp Hok Hn w1 wn.
  assert (Hmap : mapMidtransStatus (transaction_status result)
                   (fraud_status result) = SETTLEMENT)
    by (rewrite Hts; reflexivity).
  destruct (verifyPayment_settles env tid w result i p e resp Hg) as (Hst & Hwr);
    [by rewrite Hmap|done|by rewrite Hmap|done|done|].
  fold w1 in Hst, Hwr. rewrite Hmap in Hst.
  set (p1 := spec_payment_update SETTLEMENT (payment_type result)
               (verify_paid_time env result w) p) in *.
  pose proof (proj1 (list_find_Some _ _ _ _) Hf) as (Hi & HP & _).
  assert (Hf1 : list_find (verify_filter tid) (payments (store w1)) = Some (i, p1)).
  { rewrite Hst. cbn. apply (list_find_update _ _ _ p); [done|].
    by apply verify_filter_update. }
  split_and!.
  - exists (activate e). rewrite Hst. cbn. by rewrite lookup_insert_eq.
  - exists p1. rewrite Hst. cbn. split.
    + apply list_lookup_insert_eq. eauto using lookup_lt_Some.
    + apply spec_payment_update_status.
  - done.
  - subst wn. destruct n as [|n]; [lia|]. cbn [verifyPayment_times]. fold w1.
    apply (verifyPayment_times_noop env tid result n w1 i p1); [done..|].
    rewrite Hmap. apply spec_payment_update_status.
  - subst wn. destruct n as [|n]; [lia|]. cbn [verifyPayment_times]. fold w1.
    apply (verifyPayment_times_noop env tid result n w1 i p1); [done..|].
    rewrite Hmap. apply spec_payment_update_status.
Qed.

Lemma verifyPayment_settlement_once_witness :
  let w := orphan_world in
  let w1 := snd (verifyPayment sample_env "tx-1" w) in
  let wn := verifyPayment_times sample_env 3 "tx-1" w in
  (exists e', enrollments (store w1) !! enrollmentId orphan_payment = Some e' /\
              enr_status e' = active /\ progress e' = 0) /\
  (exists p', payments (store w1) !! 0%nat = Some p' /\ status p' = SETTLEMENT) /\
  writes w1 = S (S (writes w)) /\
  store wn = store w1 /\
  writes wn = writes w1.
Proof.
  eapply (verifyPayment_settlement_once sample_env "tx-1" orphan_world
            (mkStatusResult "tx-1" "settlement" None (Some "gopay") 150000 None)
            0%nat orphan_payment sample_enrollment _ 3%nat);
    first [reflexivity | discriminate | lia | (vm_compute; reflexivity)].
Defined.

(** C4, as stated, fails for verifyPayment: it runs outside a store
    transaction, so when saving the Payment fails after the Enrollment was
    updated, the call fails with the Enrollment already active and the
    Payment still PENDING. *)
Lemma verifyPayment_partial_failure :
  let w := failing_save_world in
  let r := verifyPayment sample_env "tx-1" w in
  fst r = Err StoreError /\
  status <$> payments (store w) !! 0%nat = Some PENDING /\
  enr_status <$> enrollments (store w) !! "E1" = Some pending_payment /\
  status <$> payments (store (snd r)) !! 0%nat = Some PENDING /\
  enr_status <$> enrollments (store (snd r)) !! "E1" = Some active /\
  store (snd r) <> store w.
Proof.
  cbv zeta. split_and!; try (vm_compute; reflexivity).
  intros Heq.
  assert (H : enr_status <$> enrollments
                (store (snd (verifyPayment sample_env "tx-1" failing_save_world)))
                !! "E1" = Some pending_payment) by (rewrite Heq; reflexivity).
  vm_compute in H. discriminate H.
Qed.

(** C4, amended. A failing processWebhook, cancelTransaction,
    expireTransaction or refundTransaction leaves every Payment and every
    Enrollment as before the call; a failing verifyPayment leaves every
    Payment as before the call. *)
Theorem failed_call_leaves_prior_state env payload tid amt reason w :
  (is_Ok (fst (processWebhook env payload w)) = false ->
   store (snd (processWebhook env payload w)) = store w) /\
  (is_Ok (fst (cancelTransaction env tid w)) = false ->
   store (snd (cancelTransaction env tid w)) = store w) /\
  (is_Ok (fst (expireTransaction env tid w)) = false ->
   store (snd (expireTransaction env tid w)) = store w) /\
  (is_Ok (fst (refundTransaction env tid amt reason w)) = false ->
   store (snd (refundTransaction env tid amt reason w)) = store w) /\
  (is_Ok (fst (verifyPayment env tid w)) = false ->
   payments (store (snd (verifyPayment env tid w))) = payments (store w)).
Proof.
  destruct (admin_ops_failure env tid amt reason w) as (Hc & He & Hr).
  split_and!; [|exact Hc|exact He|exact Hr|apply verifyPayment_failure_payments].
  intros Hfail.
  destruct (processWebhook_cases env payload w) as (_ & Hcases).
  destruct Hcases as [(_ & ? & _)|[(_ & ? & _)|[(? & ? & _ & _ & Hr1 & _)
                                               |(? & ? & _ & _ & Hr1 & _)]]];
    try done; by rewrite Hr1 in Hfail.
Qed.

Lemma failed_call_leaves_prior_state_witness :
  let w := failing_store_world in
  store (snd (processWebhook sample_env settled_payload w)) = store w /\
  store (snd (cancelTransaction sample_env "tx-1" w)) = store w /\
  store (snd (expireTransaction sample_env "tx-1" w)) = store w /\
  store (snd (refundTransaction sample_env "tx-1" None None w)) = store w /\
  payments (store (snd (verifyPayment sample_env "tx-1" w))) = payments (store w).
Proof.
  destruct (failed_call_leaves_prior_state sample_env settled_payload "tx-1"
              None None failing_store_world) as (H1 & H2 & H3 & H4 & H5).
  split_and!; [apply H1|apply H2|apply H3|apply H4|apply H5]; reflexivity.
Defined.

(** C1. When the abandoned attempt expires, verifyPayment moves the active
    Enrollment to cancelled, where processWebhook on the same event leaves
    it active. *)
Theorem verifyPayment_cancels_active_enrollment :
  let rv := verifyPayment expired_env "tx-1" retry_world in
  let rw := processWebhook expired_env expired_payload retry_world in
  enr_status <$> enrollments (store retry_world) !! "E1" = Some active /\
  is_Ok (fst rv) = true /\
  enr_status <$> enrollments (store (snd rv)) !! "E1" = Some cancelled /\
  fst rw = Ok EXPIRE /\
  enr_status <$> enrollments (store (snd rw)) !! "E1" = Some active.
Proof. cbv zeta. split_and!; vm_compute; reflexivity. Qed.

(** ** Further properties of the payment service *)

Ltac exec_more :=
  unfold getTransaction, getUserTransactions, getTransactionsByStatus,
    Payment_find_newest, getStatistics in *;
  exec.

(** *** createTransaction *)

(** The complete outcome of one [createTransaction] call on the store:
    nothing, or one PENDING Payment appended that clashes with no earlier
    one. *)
Lemma createTransaction_store env request w :
  let r := createTransaction env request w in
  session (snd r) = None /\
  enrollments (store (snd r)) = enrollments (store w) /\
  ((is_Ok (fst r) = false /\ store (snd r) = store w)
   \/ (exists resp p,
         fst r = Ok resp /\
         payments (store (snd r)) = (payments (store w) ++ [p])%list /\
         status p = PENDING /\
         transactionId p = cp_transactionId resp /\
         orderId p = cp_orderId resp /\
         orderId p = next_orderId env request w /\
         Some (enrollmentId p) = req_metadata request ≫= md_enrollmentId /\
         Forall (fun q => ~ clashes p q) (payments (store w)))).
Proof.
  intros r. subst r. unfold next_orderId.
  destruct w as [[ps es] ses fs tk uu wr gl].
  exec; split_and!; try reflexivity; try (left; split; reflexivity).
  right. do 2 eexists. split_and!; try reflexivity.
  - cbn. by destruct (option_bind _ _ _ _).
  - match goal with H : list_find _ _ = None |- _ =>
      apply list_find_None in H; exact H end.
Qed.

(** X1. A createTransaction call that fails, for whatever reason
    (validation, gateway, duplicate key, store failure on save or on
    commit), leaves the committed store as it was and closes its
    transaction. *)
Theorem createTransaction_failure_rollback env request w :
  is_Ok (fst (createTransaction env request w)) = false ->
  store (snd (createTransaction env request w)) = store w /\
  session (snd (createTransaction env request w)) = None.
Proof.
  intros Hfail.
  destruct (createTransaction_store env request w) as (Hs & _ & [[_ ?]|Hok]);
    [done|].
  destruct Hok as (resp & p & Hr & _). by rewrite Hr in Hfail.
Qed.

Lemma createTransaction_failure_rollback_witness :
  store (snd (createTransaction sample_env sample_request failing_store_world))
    = store failing_store_world /\
  session (snd (createTransaction sample_env sample_request failing_store_world))
    = None.
Proof.
  apply (createTransaction_failure_rollback sample_env sample_request
           failing_store_world).
  reflexivity.
Defined.

(** X2. When the gateway refuses to create the transaction, the call
    fails without a single store operation having been attempted: no
    Payment is persisted, no write is issued and the fault schedule is
    untouched. *)
Theorem createTransaction_gateway_down env request w :
  (forall o a, snap_createTransaction env o a = None) ->
  let r := createTransaction env request w in
  is_Ok (fst r) = false /\
  store (snd r) = store w /\
  writes (snd r) = writes w /\
  faults (snd r) = faults w.
Proof.
  intros Hdown r. subst r.
  destruct w as [[ps es] ses fs tk uu wr gl].
  exec; split_and!; try reflexivity.
  all: match goal with H : snap_createTransaction _ _ _ = Some _ |- _ =>
         by rewrite Hdown in H end.
Qed.

Lemma createTransaction_gateway_down_witness :
  let r := createTransaction gateway_down_env sample_request orphan_world in
  is_Ok (fst r) = false /\
  store (snd r) = store orphan_world /\
  writes (snd r) = writes orphan_world /\
  faults (snd r) = faults orphan_world.
Proof.
  apply (createTransaction_gateway_down gateway_down_env sample_request
           orphan_world).
  reflexivity.
Defined.

(** X3. Two requests of one user in the same millisecond build the same
    orderId: when a stored Payment already carries the order id the call
    is about to build, the call cannot succeed and the store stays as it
    was; when everything else goes well, the failure is the duplicate key
    raised by the save, after the gateway has already created its
    transaction. *)
Theorem createTransaction_orderId_collision env request w q :
  q ∈ payments (store w) ->
  orderId q = next_orderId env request w ->
  let r := createTransaction env request w in
  is_Ok (fst r) = false /\
  store (snd r) = store w /\
  (valid (validateTransactionRequest env request) = true ->
   amount_valid (validateAmount (req_amount request)) = true ->
   truthy_str (req_metadata request ≫= md_enrollmentId) = true ->
   is_Some (snap_createTransaction env (next_orderId env request w)
              (req_amount request)) ->
   next_fault (faults w) = false ->
   fst r = Err DuplicateKeyError /\
   gwlog (snd r) =
     GwCreate (next_orderId env request w) (req_amount request) :: gwlog w).
Proof.
  intros Hq Hoid r.
  destruct (createTransaction_store env request w) as (_ & _ & Hcases).
  fold r in Hcases.
  assert (Hfail : is_Ok (fst r) = false /\ store (snd r) = store w).
  { destruct Hcases as [?|(resp & p & _ & _ & _ & _ & _ & Hp & _ & Hall)];
      [done|].
    rewrite Forall_forall in Hall. destruct (Hall q Hq).
    right. congruence. }
  split_and!; [apply Hfail..|].
  subst r. clear Hcases Hfail. unfold next_orderId in *.
  destruct w as [[ps es] ses fs tk uu wr gl].
  intros Hv Ha He [a Hg] Hnf.
  exec; try done; try congruence.
  all: try (rewrite Hv in *; done).
  all: try (rewrite Ha in *; done).
  all: try (rewrite He in *; done).
  all: match goal with H : list_find _ _ = None |- _ =>
         apply list_find_None in H; rewrite Forall_forall in H;
         destruct (H q Hq); right; cbn; congruence end.
Qed.

Lemma createTransaction_orderId_collision_witness :
  let r := createTransaction sample_env sample_request orphan_world in
  is_Ok (fst r) = false /\
  store (snd r) = store orphan_world /\
  fst r = Err DuplicateKeyError /\
  gwlog (snd r) = [GwCreate "u1-1700000000000" 150000].
Proof.
  destruct (createTransaction_orderId_collision sample_env sample_request
              orphan_world orphan_payment) as (H1 & H2 & H3).
  - apply list_elem_of_here.
  - reflexivity.
  - destruct H3 as (H3 & H4); [reflexivity|reflexivity|reflexivity| |reflexivity|].
    + eexists. reflexivity.
    + split_and!; [exact H1|exact H2|exact H3|exact H4].
Defined.

(** *** What no operation ever does to a Payment *)

Lemma payment_identity_update st pt now p :
  payment_identity (spec_payment_update st pt now p) = payment_identity p.
Proof. unfold spec_payment_update. by destruct (settles st). Qed.

Lemma fmap_insert_same {B} (f : Payment -> B) (l : list Payment) i p p' :
  l !! i = Some p -> f p' = f p -> f <$> <[i:=p']> l = f <$> l.
Proof.
  intros Hl Hf. rewrite list_fmap_insert, Hf.
  apply list_insert_id. by rewrite list_lookup_fmap, Hl.
Qed.

(** The store after [verifyPayment]: at most the Payment the query finds
    is replaced, by its status update. *)
Lemma verifyPayment_payments env tid w :
  let r := verifyPayment env tid w in
  payments (store (snd r)) = payments (store w) \/
  exists i p st pt now,
    list_find (verify_filter tid) (payments (store w)) = Some (i, p) /\
    payments (store (snd r)) =
      <[i := spec_payment_update st pt now p]> (payments (store w)).
Proof.
  intros r. subst r. unfold spec_payment_update.
  destruct w as [[ps es] ses fs tk uu wr gl].
  exec; try (by left).
  all: match goal with
       | Hs : settles ?st = _ |- _ =>
           right; eexists _, _, st, _, _; split; [reflexivity|];
           rewrite Hs; reflexivity
       end.
  Unshelve. all: exact 0.
Qed.

(** The store after cancel, expire or refund: the Enrollments are as
    before, and at most the first Payment with the given transactionId
    has its status replaced. *)
Lemma admin_ops_store env tid amt reason w :
  let st := if truthy_num amt then PARTIAL_REFUND else REFUND in
  let effect (r : Result unit * World) (s : PaymentStatus) :=
    enrollments (store (snd r)) = enrollments (store w) /\
    (payments (store (snd r)) = payments (store w) \/
     exists i p,
       list_find (tid_filter tid) (payments (store w)) = Some (i, p) /\
       fst r = Ok tt /\
       payments (store (snd r)) = <[i := set_status s p]> (payments (store w))) in
  effect (cancelTransaction env tid w) CANCEL /\
  effect (expireTransaction env tid w) EXPIRE /\
  effect (refundTransaction env tid amt reason w) st.
Proof.
  intros st effect. subst st effect. cbv beta.
  destruct w as [[ps es] ses fs tk uu wr gl].
  split_and!; exec; try reflexivity; try (by left).
  all: right; do 2 eexists; split_and!; reflexivity.
Qed.

(** X4. No operation of the coordinator deletes or reorders a Payment or
    changes what identifies it: transactionId, orderId, userId,
    enrollmentId, amount and createdAt of every stored Payment stay as
    they are, and createTransaction only ever appends. *)
Theorem payment_identity_preserved env request payload tid amt reason w :
  let ids (x : World) := payment_identity <$> payments (store x) in
  ids w `prefix_of` ids (snd (createTransaction env request w)) /\
  ids (snd (verifyPayment env tid w)) = ids w /\
  ids (snd (processWebhook env payload w)) = ids w /\
  ids (snd (cancelTransaction env tid w)) = ids w /\
  ids (snd (expireTransaction env tid w)) = ids w /\
  ids (snd (refundTransaction env tid amt reason w)) = ids w.
Proof.
  intros ids. subst ids. cbv beta.
  destruct (admin_ops_store env tid amt reason w) as ((_ & Hc) & (_ & He) & (_ & Hr)).
  split_and!.
  - destruct (createTransaction_store env request w)
      as (_ & _ & [[_ ->]|(? & p & _ & -> & _)]); [done|].
    rewrite fmap_app. by apply prefix_app_r.
  - destruct (verifyPayment_payments env tid w)
      as [->|(i & p & st & pt & now & Hf & ->)]; [done|].
    pose proof (proj1 (list_find_Some _ _ _ _) Hf) as (Hi & _).
    eapply fmap_insert_same; [done|]. apply payment_identity_update.
  - destruct (processWebhook_cases env payload w)
      as (_ & [(_ & -> & _)|[(_ & -> & _)|[(? & ? & _ & _ & _ & -> & _)
                                          |(i & p & Hf & _ & _ & ->)]]]);
      try done.
    pose proof (proj1 (list_find_Some _ _ _ _) Hf) as (Hi & _). cbn.
    eapply fmap_insert_same; [done|]. apply payment_identity_update.
  - destruct Hc as [->|(i & p & Hf & _ & ->)]; [done|].
    pose proof (proj1 (list_find_Some _ _ _ _) Hf) as (Hi & _).
    by eapply fmap_insert_same.
  - destruct He as [->|(i & p & Hf & _ & ->)]; [done|].
    pose proof (proj1 (list_find_Some _ _ _ _) Hf) as (Hi & _).
    by eapply fmap_insert_same.
  - destruct Hr as [->|(i & p & Hf & _ & ->)]; [done|].
    pose proof (proj1 (list_find_Some _ _ _ _) Hf) as (Hi & _).
    by eapply fmap_insert_same.
Qed.

Lemma unique_ids_of_identity (s s' : Store) :
  payment_identity <$> payments s' = payment_identity <$> payments s ->
  unique_ids s -> unique_ids s'.
Proof.
  intros Hid [Ht Ho]. unfold unique_ids.
  assert (Ht' : transactionId <$> payments s' = transactionId <$> payments s).
  { change transactionId with ((fun x => x.1.1.1.1.1) ∘ payment_identity).
    by rewrite !list_fmap_compose, Hid. }
  assert (Ho' : orderId <$> payments s' = orderId <$> payments s).
  { change orderId with ((fun x => x.1.1.1.1.2) ∘ payment_identity).
    by rewrite !list_fmap_compose, Hid. }
  by rewrite Ht', Ho'.
Qed.

(** X5. The uniqueness of transactionId and of orderId over the whole
    Payment collection is an invariant of every operation of the
    coordinator. *)
Theorem unique_ids_invariant env request payload tid amt reason w :
  unique_ids (store w) ->
  unique_ids (store (snd (createTransaction env request w))) /\
  unique_ids (store (snd (verifyPayment env tid w))) /\
  unique_ids (store (snd (processWebhook env payload w))) /\
  unique_ids (store (snd (cancelTransaction env tid w))) /\
  unique_ids (store (snd (expireTransaction env tid w))) /\
  unique_ids (store (snd (refundTransaction env tid amt reason w))).
Proof.
  intros Hu.
  destruct (admin_ops_store env tid amt reason w) as ((_ & Hc) & (_ & He) & (_ & Hr)).
  split_and!.
  - destruct (createTransaction_store env request w)
      as (_ & _ & [[_ ->]|(? & p & _ & Hp & _ & _ & _ & _ & _ & Hall)]); [done|].
    destruct Hu as [Ht Ho]. unfold unique_ids. rewrite Hp, !fmap_app. cbn.
    rewrite Forall_forall in Hall. unfold clashes in Hall.
    split; apply NoDup_app; (split_and!; [done| |apply NoDup_singleton]);
      intros y (q & -> & Hq)%list_elem_of_fmap Heq%list_elem_of_singleton;
      apply (Hall q Hq); auto.
  - eapply unique_ids_of_identity; [|done].
    destruct (verifyPayment_payments env tid w)
      as [->|(i & p & st & pt & now & Hf & ->)]; [done|].
    pose proof (proj1 (list_find_Some _ _ _ _) Hf) as (Hi & _).
    eapply fmap_insert_same; [done|]. apply payment_identity_update.
  - eapply unique_ids_of_identity; [|done].
    destruct (processWebhook_cases env payload w)
      as (_ & [(_ & -> & _)|[(_ & -> & _)|[(? & ? & _ & _ & _ & -> & _)
                                          |(i & p & Hf & _ & _ & ->)]]]);
      try done.
    pose proof (proj1 (list_find_Some _ _ _ _) Hf) as (Hi & _). cbn.
    eapply fmap_insert_same; [done|]. apply payment_identity_update.
  - eapply unique_ids_of_identity; [|done].
    destruct Hc as [->|(i & p & Hf & _ & ->)]; [done|].
    pose proof (proj1 (list_find_Some _ _ _ _) Hf) as (Hi & _).
    by eapply fmap_insert_same.
  - eapply unique_ids_of_identity; [|done].
    destruct He as [->|(i & p & Hf & _ & ->)]; [done|].
    pose proof (proj1 (list_find_Some _ _ _ _) Hf) as (Hi & _).
    by eapply fmap_insert_same.
  - eapply unique_ids_of_identity; [|done].
    destruct Hr as [->|(i & p & Hf & _ & ->)]; [done|].
    pose proof (proj1 (list_find_Some _ _ _ _) Hf) as (Hi & _).
    by eapply fmap_insert_same.
Qed.

Lemma unique_ids_invariant_witness :
  let w := retry_world in
  unique_ids (store (snd (createTransaction sample_env sample_request w))) /\
  unique_ids (store (snd (verifyPayment sample_env "tx-1" w))) /\
  unique_ids (store (snd (processWebhook sample_env settled_payload w))) /\
  unique_ids (store (snd (cancelTransaction sample_env "tx-1" w))) /\
  unique_ids (store (snd (expireTransaction sample_env "tx-1" w))) /\
  unique_ids (store (snd (refundTransaction sample_env "tx-2" (Some 5000) None w))).
Proof.
  apply (unique_ids_invariant sample_env sample_request settled_payload "tx-1"
           (Some 5000) None retry_world).
  split; apply (bool_decide_unpack _); vm_compute; reflexivity.
Defined.

(** *** cancelTransaction, expireTransaction, refundTransaction *)

(** X6. cancelTransaction, expireTransaction and refundTransaction never
    touch an Enrollment, whatever happens: cancelling or refunding a
    Payment through them leaves the linked Enrollment as it is. *)
Theorem admin_ops_keep_enrollments env tid amt reason w :
  enrollments (store (snd (cancelTransaction env tid w))) = enrollments (store w) /\
  enrollments (store (snd (expireTransaction env tid w))) = enrollments (store w) /\
  enrollments (store (snd (refundTransaction env tid amt reason w)))
    = enrollments (store w).
Proof.
  destruct (admin_ops_store env tid amt reason w) as ((? & _) & (? & _) & (? & _)).
  done.
Qed.

(** X7. When the gateway accepts and the store answers, cancelTransaction
    and expireTransaction overwrite the status of the first Payment with
    the given transactionId by CANCEL or EXPIRE whatever its current
    status is (a settled Payment included), with one write, and change no
    other field and no other Payment. *)
Theorem cancel_expire_overwrite_status env tid w i p :
  list_find (tid_filter tid) (payments (store w)) = Some (i, p) ->
  next_fault (faults w) = false ->
  (core_cancel env tid = true ->
   let r := cancelTransaction env tid w in
   fst r = Ok tt /\ writes (snd r) = S (writes w) /\
   payments (store (snd r)) = <[i := set_status CANCEL p]> (payments (store w))) /\
  (core_expire env tid = true ->
   let r := expireTransaction env tid w in
   fst r = Ok tt /\ writes (snd r) = S (writes w) /\
   payments (store (snd r)) = <[i := set_status EXPIRE p]> (payments (store w))).
Proof.
  intros Hf Hnf.
  destruct w as [[ps es] ses fs tk uu wr gl].
  split; intros Hg; exec; split_and!; try reflexivity; congruence.
Qed.

Lemma cancel_expire_overwrite_status_witness :
  let w := settled_world in
  (let r := cancelTransaction sample_env "tx-1" w in
   fst r = Ok tt /\ writes (snd r) = S (writes w) /\
   payments (store (snd r))
     = <[0%nat := set_status CANCEL settled_payment]> (payments (store w))) /\
  (let r := expireTransaction sample_env "tx-1" w in
   fst r = Ok tt /\ writes (snd r) = S (writes w) /\
   payments (store (snd r))
     = <[0%nat := set_status EXPIRE settled_payment]> (payments (store w))).
Proof.
  destruct (cancel_expire_overwrite_status sample_env "tx-1" settled_world
              0%nat settled_payment) as (H1 & H2); [reflexivity..|].
  split; [apply H1|apply H2]; reflexivity.
Defined.

(** X8. refundTransaction decides between a full and a partial refund by
    the truthiness of the amount: without an amount, or with amount 0, the
    gateway is given no amount and the Payment becomes REFUND; with any
    other amount, the Payment's full amount included, the gateway is given
    that amount and the Payment becomes PARTIAL_REFUND. *)
Theorem refundTransaction_status env tid amt reason w i p :
  list_find (tid_filter tid) (payments (store w)) = Some (i, p) ->
  next_fault (faults w) = false ->
  core_refund env tid (refund_amount_param amt) (refund_reason_param reason)
    = true ->
  let r := refundTransaction env tid amt reason w in
  let st := match amt with
            | None | Some 0 => REFUND
            | Some _ => PARTIAL_REFUND
            end in
  fst r = Ok tt /\
  head (gwlog (snd r)) =
    Some (GwRefund tid (match amt with Some 0 => None | _ => amt end)
            (refund_reason_param reason)) /\
  payments (store (snd r)) = <[i := set_status st p]> (payments (store w)).
Proof.
  intros Hf Hnf Hg r st. subst r st.
  unfold refund_amount_param, refund_reason_param in *.
  destruct w as [[ps es] ses fs tk uu wr gl].
  destruct amt as [[| |]|]; exec; split_and!; try reflexivity; congruence.
Qed.

Lemma refundTransaction_status_witness :
  let w := settled_world in
  let r0 := refundTransaction sample_env "tx-1" (Some 0) None w in
  let r1 := refundTransaction sample_env "tx-1" (Some 150000) None w in
  (fst r0 = Ok tt /\
   head (gwlog (snd r0)) = Some (GwRefund "tx-1" None None) /\
   payments (store (snd r0))
     = <[0%nat := set_status REFUND settled_payment]> (payments (store w))) /\
  (fst r1 = Ok tt /\
   head (gwlog (snd r1)) = Some (GwRefund "tx-1" (Some 150000) None) /\
   payments (store (snd r1))
     = <[0%nat := set_status PARTIAL_REFUND settled_payment]> (payments (store w))).
Proof.
  split.
  - apply (refundTransaction_status sample_env "tx-1" (Some 0) None
             settled_world 0%nat settled_payment); reflexivity.
  - apply (refundTransaction_status sample_env "tx-1" (Some 150000) None
             settled_world 0%nat settled_payment); reflexivity.
Defined.

(** X9. When the gateway refuses a cancel, expire or refund, the call
    fails with the gateway's error before any store operation: the store,
    the number of writes and the fault schedule are as before. *)
Theorem admin_ops_gateway_refusal env tid amt reason w :
  let untouched (r : Result unit * World) :=
    fst r = Err GatewayError /\ store (snd r) = store w /\
    writes (snd r) = writes w /\ faults (snd r) = faults w in
  (core_cancel env tid = false -> untouched (cancelTransaction env tid w)) /\
  (core_expire env tid = false -> untouched (expireTransaction env tid w)) /\
  (core_refund env tid (refund_amount_param amt) (refund_reason_param reason)
     = false -> untouched (refundTransaction env tid amt reason w)).
Proof.
  intros untouched. subst untouched. cbv beta.
  unfold refund_amount_param, refund_reason_param.
  destruct w as [[ps es] ses fs tk uu wr gl].
  split_and!; intros Hg; exec; split_and!; try reflexivity; congruence.
Qed.

Lemma admin_ops_gateway_refusal_witness :
  let w := orphan_world in
  let untouched (r : Result unit * World) :=
    fst r = Err GatewayError /\ store (snd r) = store w /\
    writes (snd r) = writes w /\ faults (snd r) = faults w in
  untouched (cancelTransaction gateway_down_env "tx-1" w) /\
  untouched (expireTransaction gateway_down_env "tx-1" w) /\
  untouched (refundTransaction gateway_down_env "tx-1" (Some 5000) None w).
Proof.
  destruct (admin_ops_gateway_refusal gateway_down_env "tx-1" (Some 5000) None
              orphan_world) as (H1 & H2 & H3).
  split; [apply H1|split; [apply H2|apply H3]]; reflexivity.
Defined.

(** *** verifyPayment *)

(** X10. What verifyPayment returns comes from the gateway alone: a
    successful call returns the gateway's transaction id, the mapped
    status, the gateway's settlement time, payment type and amount,
    whether or not a local Payment exists; and when no local Payment
    matches, neither as transactionId nor as orderId, nothing is written. *)
Theorem verifyPayment_gateway_only env tid w :
  let r := verifyPayment env tid w in
  (forall resp, fst r = Ok resp ->
     exists result,
       core_status env tid = Some result /\
       resp = mkVerifyPaymentResponse (transaction_id result)
                (mapMidtransStatus (transaction_status result)
                                   (fraud_status result))
                (settlement_time result) (payment_type result)
                (gross_amount result)) /\
  (list_find (verify_filter tid) (payments (store w)) = None ->
   store (snd r) = store w /\ writes (snd r) = writes w /\
   (is_Some (core_status env tid) -> next_fault (faults w) = false ->
    is_Ok (fst r) = true)).
Proof.
  intros r. subst r.
  destruct w as [[ps es] ses fs tk uu wr gl].
  split.
  - intros resp. exec; intros; simplify_eq; eauto.
    all: eexists; split; [reflexivity|]; congruence.
  - intros Hf. exec; split_and!; try reflexivity; intros [? ?] ?; congruence.
Qed.

(** X11. When the gateway's status query fails, verifyPayment fails with
    the gateway's error before reading the store: store, writes and fault
    schedule are as before, and the query is the only thing recorded. *)
Theorem verifyPayment_gateway_failure env tid w :
  core_status env tid = None ->
  let r := verifyPayment env tid w in
  fst r = Err GatewayError /\ store (snd r) = store w /\
  writes (snd r) = writes w /\ faults (snd r) = faults w /\
  gwlog (snd r) = GwStatus tid :: gwlog w.
Proof.
  intros Hg r. subst r.
  destruct w as [[ps es] ses fs tk uu wr gl].
  exec; split_and!; reflexivity.
Qed.

Lemma verifyPayment_gateway_only_witness :
  let w := sample_world in
  let r := verifyPayment sample_env "tx-9" w in
  (exists result,
     core_status sample_env "tx-9" = Some result /\
     fst r = Ok (mkVerifyPaymentResponse (transaction_id result)
                   (mapMidtransStatus (transaction_status result)
                                      (fraud_status result))
                   (settlement_time result) (payment_type result)
                   (gross_amount result))) /\
  store (snd r) = store w /\ writes (snd r) = writes w /\
  is_Ok (fst r) = true.
Proof.
  destruct (verifyPayment_gateway_only sample_env "tx-9" sample_world)
    as (H1 & H2).
  destruct (H1 (mkVerifyPaymentResponse "tx-9" SETTLEMENT None (Some "gopay")
                  150000) eq_refl) as (result & Hg & Hr).
  destruct (H2 eq_refl) as (H3 & H4 & H5).
  split_and!; [|exact H3|exact H4|apply H5; [by eexists|reflexivity]].
  exists result. split; [exact Hg|]. rewrite <- Hr. reflexivity.
Defined.

Lemma verifyPayment_gateway_failure_witness :
  let w := orphan_world in
  let r := verifyPayment gateway_down_env "tx-1" w in
  fst r = Err GatewayError /\ store (snd r) = store w /\
  writes (snd r) = writes w /\ faults (snd r) = faults w /\
  gwlog (snd r) = GwStatus "tx-1" :: gwlog w.
Proof.
  apply (verifyPayment_gateway_failure gateway_down_env "tx-1" orphan_world).
  reflexivity.
Defined.

(** *** processWebhook *)

(** X12. The cancel guard of processWebhook: a notification whose status
    does not settle never changes an Enrollment that is not in
    pending_payment, so an active, completed or already cancelled
    Enrollment is never moved by a cancel or expire notification. *)
Theorem processWebhook_cancel_guard env payload w eid e :
  settles (webhook_status payload) = false ->
  enrollments (store w) !! eid = Some e ->
  enr_status e <> pending_payment ->
  enrollments (store (snd (processWebhook env payload w))) !! eid = Some e.
Proof.
  intros Hset He Hne.
  destruct (processWebhook_cases env payload w) as (_ & Hcases).
  destruct Hcases as [(_ & -> & _)|[(_ & -> & _)|[(? & ? & _ & _ & _ & -> & _)
                                               |(i & p & _ & _ & _ & ->)]]];
    try done.
  cbn. unfold spec_enrollment_update. rewrite Hset.
  destruct (enrollments (store w) !! enrollmentId p) as [e'|] eqn:He'; [|done].
  destruct (cancels (webhook_status payload)); [|done].
  cbn. case_bool_decide; [|done].
  rewrite lookup_insert_ne; [done|]. intros <-. congruence.
Qed.

Lemma processWebhook_cancel_guard_witness :
  enrollments (store (snd (processWebhook expired_env expired_payload retry_world)))
    !! "E1" = Some active_enrollment.
Proof.
  apply (processWebhook_cancel_guard expired_env expired_payload retry_world
           "E1" active_enrollment); [reflexivity|reflexivity|discriminate].
Defined.

(** X13. processWebhook touches at most the Payment its query finds and
    the Enrollment that Payment links to: every other Payment and every
    other Enrollment is as before, and the collection keeps its length. *)
Theorem processWebhook_frame env payload w i p :
  list_find (webhook_filter payload) (payments (store w)) = Some (i, p) ->
  let w' := snd (processWebhook env payload w) in
  length (payments (store w')) = length (payments (store w)) /\
  (forall j, j <> i -> payments (store w') !! j = payments (store w) !! j) /\
  (forall eid, eid <> enrollmentId p ->
     enrollments (store w') !! eid = enrollments (store w) !! eid).
Proof.
  intros Hf w'. subst w'.
  destruct (processWebhook_cases env payload w) as (_ & Hcases).
  destruct Hcases as [(_ & -> & _)|[(_ & -> & _)|[(? & ? & _ & _ & _ & -> & _)
                                               |(i' & p' & Hf' & _ & _ & ->)]]];
    try done.
  assert (i' = i /\ p' = p) as [-> ->] by (split; congruence). cbn.
  split_and!.
  - apply length_insert.
  - intros j Hj. by apply list_lookup_insert_ne.
  - intros eid Hne. unfold spec_enrollment_update.
    repeat case_match; try done; by rewrite lookup_insert_ne.
Qed.

Lemma processWebhook_frame_witness :
  let w' := snd (processWebhook sample_env settled_payload retry_world) in
  length (payments (store w')) = length (payments (store retry_world)) /\
  (forall j, j <> 0%nat ->
     payments (store w') !! j = payments (store retry_world) !! j) /\
  (forall eid, eid <> enrollmentId abandoned_payment ->
     enrollments (store w') !! eid = enrollments (store retry_world) !! eid).
Proof.
  apply (processWebhook_frame sample_env settled_payload retry_world 0%nat
           abandoned_payment).
  reflexivity.
Defined.

(** *** How the operations compose *)

(** X14. Payment, then notification: after a successful createTransaction
    for an existing Enrollment, the settlement notification carrying the
    returned orderId succeeds when the store answers, marks exactly the new
    Payment as SETTLEMENT with its paidAt set, and makes the Enrollment
    named in the request active with progress 0.  The notification's own
    transaction_id is the gateway's and is only required not to be the
    transactionId of an earlier Payment. *)
Theorem create_then_settlement_webhook env request w resp w1 eid e payload :
  createTransaction env request w = (Ok resp, w1) ->
  req_metadata request ≫= md_enrollmentId = Some eid ->
  enrollments (store w) !! eid = Some e ->
  wh_order_id payload = Some (cp_orderId resp) ->
  Forall (fun q => ~ field_is (wh_transaction_id payload) (transactionId q))
         (payments (store w)) ->
  wh_transaction_status payload = "settlement" ->
  faults w1 = [] ->
  let r := processWebhook env payload w1 in
  let i := length (payments (store w)) in
  fst r = Ok SETTLEMENT /\
  (exists p', payments (store (snd r)) !! i = Some p' /\
              transactionId p' = cp_transactionId resp /\
              status p' = SETTLEMENT /\
              paidAt p' = Some (clock env (ticks w1))) /\
  (forall j, j <> i -> payments (store (snd r)) !! j = payments (store w1) !! j) /\
  enrollments (store (snd r)) !! eid = Some (activate e).
Proof.
  intros Hc Hmd He Ho Ht Hs Hfs r i.
  pose proof (createTransaction_store env request w) as (_ & Hes & Hcases).
  rewrite Hc in Hes, Hcases. cbn in Hes, Hcases.
  destruct Hcases as [[? _]|(resp' & p & Hr & Hps & Hst & Htid & Hoid & _ & Heid & Hall)];
    [done|].
  assert (resp' = resp) by congruence. subst resp'.
  assert (Hws : webhook_status payload = SETTLEMENT).
  { unfold webhook_status. rewrite Hs. reflexivity. }
  assert (Hf : list_find (webhook_filter payload) (payments (store w1)) = Some (i, p)).
  { rewrite Hps. apply list_find_Some. split_and!.
    - by rewrite lookup_app_r, Nat.sub_diag.
    - left. unfold field_is. by rewrite Ho, Hoid.
    - intros j q Hj Hlt. rewrite lookup_app_l in Hj by done.
      apply list_elem_of_lookup_2 in Hj.
      rewrite Forall_forall in Hall, Ht.
      intros [H|H]; [|by apply (Ht q Hj)].
      apply (Hall q Hj). right. unfold field_is in H. rewrite Ho in H.
      congruence. }
  pose proof (processWebhook_succeeds env payload w1 i p Hf Hfs) as Hok.
  fold r in Hok. rewrite Hws in Hok.
  destruct (processWebhook_cases env payload w1) as (_ & Hcases).
  fold r in Hcases. rewrite Hws in Hcases.
  destruct Hcases as [(? & _)|[(? & _)|[(i' & p' & Hf' & Hst' & _)
                                       |(i' & p' & Hf' & _ & _ & Hstore)]]];
    try congruence.
  assert (i' = i /\ p' = p) as [-> ->] by (split; congruence).
  assert (Heid' : enrollmentId p = eid) by (rewrite Hmd in Heid; congruence).
  split_and!; [done| | |].
  - eexists. rewrite Hstore. cbn. split_and!.
    + apply list_lookup_insert_eq. rewrite Hps, length_app. cbn. subst i. lia.
    + by destruct (spec_payment_update_ids SETTLEMENT (wh_payment_type payload)
                     (clock env (ticks w1)) p) as (-> & _).
    + apply spec_payment_update_status.
    + reflexivity.
  - intros j Hj. rewrite Hstore. cbn. by apply list_lookup_insert_ne.
  - rewrite Hstore. cbn. unfold spec_enrollment_update.
    rewrite Heid', Hes, He. cbn. apply lookup_insert_eq.
Qed.

Lemma create_then_settlement_webhook_witness :
  let res := createTransaction sample_env sample_request busy_world in
  let payload := mkWebhookPayload (Some "u1-1700000000015") "settlement"
                   None (Some "gopay") (Some "midtrans-7781") in
  let r := processWebhook sample_env payload (snd res) in
  fst r = Ok SETTLEMENT /\
  (exists p', payments (store (snd r)) !! 1%nat = Some p' /\
              transactionId p' = "uuid-1" /\
              status p' = SETTLEMENT /\
              paidAt p' = Some (clock sample_env (ticks (snd res)))) /\
  (forall j, j <> 1%nat ->
     payments (store (snd r)) !! j = payments (store (snd res)) !! j) /\
  enrollments (store (snd r)) !! "E1" = Some (activate sample_enrollment).
Proof.
  apply (create_then_settlement_webhook sample_env sample_request busy_world
           (mkCreatePaymentResponse "uuid-1" "u1-1700000000015" 150000
              "snap-token" "https://pay.example/r" 1700003600020)
           (snd (createTransaction sample_env sample_request busy_world))
           "E1" sample_enrollment
           (mkWebhookPayload (Some "u1-1700000000015") "settlement" None
              (Some "gopay") (Some "midtrans-7781")));
    [vm_compute; reflexivity|reflexivity|reflexivity|reflexivity|
     |reflexivity|vm_compute; reflexivity].
  repeat constructor. unfold field_is. discriminate.
Defined.

(** After a successful [verifyPayment] that found a Payment, the stored
    Payment carries the mapped status and still answers both queries. *)
Lemma verifyPayment_stores_status env tid w resp i p :
  fst (verifyPayment env tid w) = Ok resp ->
  list_find (verify_filter tid) (payments (store w)) = Some (i, p) ->
  exists p1,
    payments (store (snd (verifyPayment env tid w))) !! i = Some p1 /\
    status p1 = vp_status resp /\
    transactionId p1 = transactionId p /\ orderId p1 = orderId p /\
    forall j, j <> i ->
      payments (store (snd (verifyPayment env tid w))) !! j
        = payments (store w) !! j.
Proof.
  intros Hok Hf.
  pose proof (proj1 (list_find_Some _ _ _ _) Hf) as (Hi & _).
  pose proof (lookup_lt_Some _ _ _ Hi) as Hlt.
  destruct w as [[ps es] ses fs tk uu wr gl].
  exec; try done.
  all: try (eexists; split_and!;
            [apply list_lookup_insert_eq; done|reflexivity..|
             intros j Hj; by apply list_lookup_insert_ne]).
  all: eexists; split_and!; [eassumption|done..].
Qed.

(** The status a successful [verifyPayment] returns is the mapped status
    of the gateway's answer. *)
Lemma verifyPayment_status_mapped env tid w resp result :
  fst (verifyPayment env tid w) = Ok resp ->
  core_status env tid = Some result ->
  vp_status resp
    = mapMidtransStatus (transaction_status result) (fraud_status result).
Proof.
  destruct w as [[ps es] ses fs tk uu wr gl].
  exec; intros; simplify_eq; reflexivity.
Qed.

(** X15. Verification and notification agree.  Whichever of verifyPayment
    and processWebhook first stores a status on a Payment, the other one,
    reporting the same status for that Payment, then changes nothing and
    issues no write: the Enrollment is not activated or cancelled a second
    time. *)
Theorem verify_and_webhook_agree env payload tid result w i p :
  list_find (webhook_filter payload) (payments (store w)) = Some (i, p) ->
  list_find (verify_filter tid) (payments (store w)) = Some (i, p) ->
  core_status env tid = Some result ->
  mapMidtransStatus (transaction_status result) (fraud_status result)
    = webhook_status payload ->
  (is_Ok (fst (processWebhook env payload w)) = true ->
   let w1 := snd (processWebhook env payload w) in
   store (snd (verifyPayment env tid w1)) = store w1 /\
   writes (snd (verifyPayment env tid w1)) = writes w1) /\
  (is_Ok (fst (verifyPayment env tid w)) = true ->
   let w1 := snd (verifyPayment env tid w) in
   store (snd (processWebhook env payload w1)) = store w1 /\
   writes (snd (processWebhook env payload w1)) = writes w1).
Proof.
  intros Hfw Hfv Hg Hmap.
  pose proof (proj1 (list_find_Some _ _ _ _) Hfw) as (Hi & HPw & Hminw).
  pose proof (proj1 (list_find_Some _ _ _ _) Hfv) as (_ & HPv & Hminv).
  split.
  - intros Hok w1.
    destruct (processWebhook_cases env payload w) as (_ & Hcases).
    destruct Hcases as [(Hr & _)|[(Hr & _)|[(i' & p' & Hf' & Hst' & _ & Hstore & _)
                                           |(i' & p' & Hf' & _ & _ & Hstore)]]];
      try (rewrite Hr in Hok; done).
    + assert (p' = p) by congruence. subst p'.
      apply (verifyPayment_noop env tid w1 result i p Hg);
        [subst w1; by rewrite Hstore|congruence].
    + assert (i' = i /\ p' = p) as [-> ->] by (split; congruence).
      eapply (verifyPayment_noop env tid w1 result i _ Hg).
      * subst w1. rewrite Hstore. cbn.
        apply (list_find_update _ _ _ p); [done|].
        by apply verify_filter_update.
      * rewrite Hmap. apply spec_payment_update_status.
  - intros Hok w1.
    destruct (fst (verifyPayment env tid w)) as [resp|] eqn:Hr; [|done].
    destruct (verifyPayment_stores_status env tid w resp i p Hr Hfv)
      as (p1 & Hp1 & Hst1 & Ht1 & Ho1 & Hother).
    rewrite (verifyPayment_status_mapped env tid w resp result Hr Hg) in Hst1.
    destruct (processWebhook_noop env payload w1 i p1) as (? & ? & _);
      [|congruence|done].
    apply list_find_Some. split_and!; [done| |].
    + unfold webhook_filter in *. by rewrite Ht1, Ho1.
    + intros j q Hj Hlt. subst w1. rewrite Hother in Hj by lia. eauto.
Qed.

Lemma verify_and_webhook_agree_witness :
  let w := orphan_world in
  (let w1 := snd (processWebhook sample_env settled_payload w) in
   store (snd (verifyPayment sample_env "tx-1" w1)) = store w1 /\
   writes (snd (verifyPayment sample_env "tx-1" w1)) = writes w1) /\
  (let w1 := snd (verifyPayment sample_env "tx-1" w) in
   store (snd (processWebhook sample_env settled_payload w1)) = store w1 /\
   writes (snd (processWebhook sample_env settled_payload w1)) = writes w1).
Proof.
  destruct (verify_and_webhook_agree sample_env settled_payload "tx-1"
              (mkStatusResult "tx-1" "settlement" None (Some "gopay") 150000 None)
              orphan_world 0%nat orphan_payment) as (H1 & H2);
    [reflexivity..|].
  split; [apply H1|apply H2]; vm_compute; reflexivity.
Defined.

(** *** The transaction service *)

(** X16. getTransaction never throws and never writes: a failure of the
    store is answered with null, exactly like a transaction that does not
    exist; otherwise the answer is the first Payment whose transactionId
    or orderId is the given id, with an expiry 24 hours after its
    createdAt. *)
Theorem getTransaction_total tid w :
  let r := getTransaction tid w in
  store (snd r) = store w /\ writes (snd r) = writes w /\
  fst r = Ok (if next_fault (faults w) then None
              else toTransactionData ∘ snd
                     <$> list_find (verify_filter tid) (payments (store w))) /\
  (forall td, fst r = Ok (Some td) ->
     td_expiresAt td = td_createdAt td + 24 * 60 * 60 * 1000).
Proof.
  intros r. subst r.
  destruct w as [[ps es] ses fs tk uu wr gl].
  exec_more; split_and!; try reflexivity; intros; simplify_eq; try done.
  destruct (list_find _ _) as [[? ?]|]; simplify_eq/=. reflexivity.
Qed.

Lemma getTransaction_total_witness :
  td_expiresAt (toTransactionData orphan_payment)
    = td_createdAt (toTransactionData orphan_payment) + 24 * 60 * 60 * 1000.
Proof.
  destruct (getTransaction_total "tx-1" orphan_world)
    as (_ & _ & _ & H).
  apply H. reflexivity.
Defined.

(** Without a store failure [getTransaction] answers with the first
    Payment matching the id, if any. *)
Lemma getTransaction_found tid w :
  next_fault (faults w) = false ->
  fst (getTransaction tid w)
    = Ok (toTransactionData ∘ snd
            <$> list_find (verify_filter tid) (payments (store w))).
Proof.
  destruct w as [[ps es] ses fs tk uu wr gl].
  intros Hnf. exec_more; reflexivity.
Qed.

(** X17. The expiry reported for a fresh transaction depends on who is
    asked: createTransaction returns a time one hour after it was built,
    while getTransaction, asked for the same transaction, reports 24 hours
    after the Payment's createdAt; with a clock that does not go
    backwards the two are at least 23 hours apart. *)
Theorem create_then_getTransaction env request w resp w1 :
  createTransaction env request w = (Ok resp, w1) ->
  Forall (fun q => orderId q <> cp_transactionId resp) (payments (store w)) ->
  next_fault (faults w1) = false ->
  clock env (S (ticks w)) <= clock env (S (S (ticks w))) ->
  exists td,
    fst (getTransaction (cp_transactionId resp) w1) = Ok (Some td) /\
    td_orderId td = cp_orderId resp /\
    td_status td = PENDING /\
    td_expiresAt td = clock env (S (S (ticks w))) + 24 * 60 * 60 * 1000 /\
    cp_expiresAt resp = clock env (S (ticks w)) + 60 * 60 * 1000 /\
    cp_expiresAt resp + 23 * 60 * 60 * 1000 <= td_expiresAt td.
Proof.
  intros Hc Hno Hnf Hclock.
  assert (Hshape : exists p,
             payments (store w1) = (payments (store w) ++ [p])%list /\
             status p = PENDING /\
             transactionId p = cp_transactionId resp /\
             orderId p = cp_orderId resp /\
             createdAt p = clock env (S (S (ticks w))) /\
             cp_expiresAt resp = clock env (S (ticks w)) + 60 * 60 * 1000 /\
             Forall (fun q => ~ clashes p q) (payments (store w))).
  { clear Hno Hnf Hclock. destruct w as [[ps es] ses fs tk uu wr gl].
    exec. eexists. split_and!; try reflexivity.
    match goal with H : list_find _ _ = None |- _ =>
      apply list_find_None in H; exact H end. }
  destruct Hshape as (p & Hps & Hst & Htid & Hoid & Hcr & Hexp & Hall).
  exists (toTransactionData p).
  pose proof (getTransaction_found (cp_transactionId resp) w1 Hnf) as Hr.
  assert (Hf : list_find (verify_filter (cp_transactionId resp))
                 (payments (store w1))
               = Some (length (payments (store w)), p)).
  { rewrite Hps. apply list_find_Some. split_and!.
    - by rewrite lookup_app_r, Nat.sub_diag.
    - by left.
    - intros j q Hj Hlt. rewrite lookup_app_l in Hj by done.
      apply list_elem_of_lookup_2 in Hj.
      rewrite Forall_forall in Hall, Hno.
      intros [H|H]; [apply (Hall q Hj); left; congruence|by apply (Hno q Hj)]. }
  rewrite Hf in Hr. cbn in Hr.
  split_and!; [exact Hr|done|done|cbn; by rewrite Hcr|done|].
  cbn. rewrite Hexp, Hcr. lia.
Qed.

Lemma create_then_getTransaction_witness :
  let res := createTransaction sample_env sample_request busy_world in
  exists td,
    fst (getTransaction "uuid-1" (snd res)) = Ok (Some td) /\
    td_orderId td = "u1-1700000000015" /\
    td_status td = PENDING /\
    td_expiresAt td = clock sample_env 5 + 24 * 60 * 60 * 1000 /\
    1700003600020 = clock sample_env 4 + 60 * 60 * 1000 /\
    1700003600020 + 23 * 60 * 60 * 1000 <= td_expiresAt td.
Proof.
  apply (create_then_getTransaction sample_env sample_request busy_world
           (mkCreatePaymentResponse "uuid-1" "u1-1700000000015" 150000
              "snap-token" "https://pay.example/r" 1700003600020)
           (snd (createTransaction sample_env sample_request busy_world))).
  - vm_compute. reflexivity.
  - repeat constructor. discriminate.
  - vm_compute. reflexivity.
  - vm_compute. discriminate.
Defined.

#[local] Instance newest_first_total : Total newest_first.
Proof. intros p q. unfold newest_first. lia. Qed.

#[local] Instance newest_first_trans : Transitive newest_first.
Proof. intros p q r. unfold newest_first. lia. Qed.

(** The documents a sorted, limited query returns are the newest ones
    among those the filter selects. *)
Lemma find_newest_spec (P : Payment -> Prop) `{!forall p, Decision (P p)}
    (limit : nat) (ps : list Payment) :
  let shown := apply_limit limit (merge_sort newest_first (filter P ps)) in
  exists rest,
    filter P ps ≡ₚ shown ++ rest /\
    StronglySorted newest_first shown /\
    (forall p q, p ∈ shown -> q ∈ rest -> createdAt q <= createdAt p) /\
    (limit = 0%nat -> rest = []) /\
    (limit <> 0%nat -> length shown = min limit (length (filter P ps))).
Proof.
  intros shown. subst shown.
  pose proof (StronglySorted_merge_sort newest_first (filter P ps)) as Hs.
  pose proof (merge_sort_Permutation newest_first (filter P ps)) as Hp.
  set (sorted := merge_sort newest_first (filter P ps)) in *.
  destruct limit as [|k]; cbn [apply_limit].
  - exists []. rewrite app_nil_r. split_and!; try done.
    intros ? ? ? []%elem_of_nil.
  - exists (drop (S k) sorted).
    rewrite take_drop. split_and!; try done.
    + rewrite <- (take_drop (S k) sorted) in Hs.
      by apply StronglySorted_app_1_l in Hs.
    + intros p q Hin Hq. rewrite <- (take_drop (S k) sorted) in Hs.
      apply (StronglySorted_app_1_elem_of _ _ _ p q Hs Hin Hq).
    + intros _. rewrite length_take. by rewrite Hp.
Qed.

(** X18. getUserTransactions returns, newest first, transactions of the
    given user only; with a positive limit these are the [limit] newest
    ones (all of them when there are fewer), every one left out being no
    newer than every one returned; a limit of 0 returns all of them.  The
    call writes nothing. *)
Theorem getUserTransactions_newest uid limit w hs :
  fst (getUserTransactions uid limit w) = Ok hs ->
  store (snd (getUserTransactions uid limit w)) = store w /\
  writes (snd (getUserTransactions uid limit w)) = writes w /\
  exists shown rest,
    hs = toPaymentHistory <$> shown /\
    filter (user_filter uid) (payments (store w)) ≡ₚ shown ++ rest /\
    StronglySorted newest_first shown /\
    (forall p q, p ∈ shown -> q ∈ rest -> createdAt q <= createdAt p) /\
    (limit = 0%nat -> rest = []) /\
    (limit <> 0%nat ->
     length hs = min limit (length (filter (user_filter uid) (payments (store w))))).
Proof.
  destruct w as [[ps es] ses fs tk uu wr gl].
  intros Hok. exec_more. split_and!; try reflexivity.
  destruct (find_newest_spec (user_filter uid) limit ps)
    as (rest & Hp & Hs & Hle & H0 & Hlen).
  eexists _, rest. split_and!; try done.
  intros Hl. rewrite length_fmap. by apply Hlen.
Qed.

(** X19. getTransactionsByStatus returns, newest first, Payments of the
    given status only, cut to the [limit] newest ones when the limit is
    positive and complete when it is 0, and writes nothing. *)
Theorem getTransactionsByStatus_newest st limit w hs :
  fst (getTransactionsByStatus st limit w) = Ok hs ->
  store (snd (getTransactionsByStatus st limit w)) = store w /\
  writes (snd (getTransactionsByStatus st limit w)) = writes w /\
  Forall (fun h => ph_status h = st) hs /\
  exists shown rest,
    hs = toPaymentHistory <$> shown /\
    filter (status_filter st) (payments (store w)) ≡ₚ shown ++ rest /\
    StronglySorted newest_first shown /\
    (forall p q, p ∈ shown -> q ∈ rest -> createdAt q <= createdAt p) /\
    (limit = 0%nat -> rest = []) /\
    (limit <> 0%nat ->
     length hs = min limit (length (filter (status_filter st) (payments (store w))))).
Proof.
  destruct w as [[ps es] ses fs tk uu wr gl].
  intros Hok. exec_more.
  destruct (find_newest_spec (status_filter st) limit ps)
    as (rest & Hp & Hs & Hle & H0 & Hlen).
  split_and!; try reflexivity.
  - apply Forall_forall. intros h (p & -> & Hin)%list_elem_of_fmap. cbn.
    assert (Hin' : p ∈ filter (status_filter st) ps).
    { rewrite Hp. apply elem_of_app. by left. }
    by apply list_elem_of_filter in Hin' as [? _].
  - eexists _, rest. split_and!; try done.
    intros Hl. rewrite length_fmap. by apply Hlen.
Qed.

Lemma getUserTransactions_newest_witness :
  let w := retry_world in
  let hs := [toPaymentHistory paid_payment] in
  store (snd (getUserTransactions "u1" 1 w)) = store w /\
  writes (snd (getUserTransactions "u1" 1 w)) = writes w /\
  exists shown rest,
    hs = toPaymentHistory <$> shown /\
    filter (user_filter "u1") (payments (store w)) ≡ₚ shown ++ rest /\
    StronglySorted newest_first shown /\
    (forall p q, p ∈ shown -> q ∈ rest -> createdAt q <= createdAt p) /\
    (1%nat = 0%nat -> rest = []) /\
    (1%nat <> 0%nat ->
     length hs = min 1 (length (filter (user_filter "u1") (payments (store w))))).
Proof.
  apply (getUserTransactions_newest "u1" 1 retry_world
           [toPaymentHistory paid_payment]).
  vm_compute. reflexivity.
Defined.

Lemma getTransactionsByStatus_newest_witness :
  let w := retry_world in
  let hs := [toPaymentHistory abandoned_payment] in
  store (snd (getTransactionsByStatus PENDING 0 w)) = store w /\
  writes (snd (getTransactionsByStatus PENDING 0 w)) = writes w /\
  Forall (fun h => ph_status h = PENDING) hs /\
  exists shown rest,
    hs = toPaymentHistory <$> shown /\
    filter (status_filter PENDING) (payments (store w)) ≡ₚ shown ++ rest /\
    StronglySorted newest_first shown /\
    (forall p q, p ∈ shown -> q ∈ rest -> createdAt q <= createdAt p) /\
    (0%nat = 0%nat -> rest = []) /\
    (0%nat <> 0%nat ->
     length hs = min 0 (length (filter (status_filter PENDING) (payments (store w))))).
Proof.
  apply (getTransactionsByStatus_newest PENDING 0 retry_world
           [toPaymentHistory abandoned_payment]).
  vm_compute. reflexivity.
Defined.





(** Outside that range the model is silent: one amount of 2^53 and one
    of 1. *)
Lemma sum_amounts_beyond_exact_range :
  sum_amounts [mkPayment "tx-a" "o-a" "u1" "E1" (2 ^ 53) SETTLEMENT "gopay"
                         None 0 None;
               mkPayment "tx-b" "o-b" "u1" "E1" 1 SETTLEMENT "gopay"
                         None 0 None] = None.
Proof. reflexivity. Qed.

(** *** Pagination *)

Lemma Math_ceil_div_bounds total limit :
  0 <= total -> 0 < limit ->
  (Math_ceil_div total limit - 1) * limit < total <= Math_ceil_div total limit * limit.
Proof.
  intros Ht Hl. unfold Math_ceil_div.
  pose proof (Z.div_mod (- total) limit ltac:(lia)).
  pose proof (Z.mod_pos_bound (- total) limit Hl). nia.
Qed.

Lemma concat_page_windows {A} (limit : nat) (l : list A) (m : nat) :
  concat ((fun k => page_window (S k) limit l) <$> seq 0 m) = take (m * limit) l.
Proof.
  induction m as [|m IH]; [done|].
  rewrite seq_S, fmap_app, concat_app, IH. cbn.
  rewrite app_nil_r. unfold page_window.
  replace (S m - 1)%nat with m by lia.
  rewrite take_take_drop. f_equal. lia.
Qed.

(** X21. Pagination covers everything exactly once: with a positive limit
    and pages = Math.ceil(total / limit) as paginatedResponse reports it,
    the windows of pages 1 to [pages], put one after the other, are the
    whole list of matches in order; every page from 1 to [pages] is
    non-empty, every later page is empty, and no page is longer than the
    limit. *)
Theorem pagination_covers {A} (limit : nat) (matches items : list A) (page : Z) :
  (0 < limit)%nat ->
  let total := Z.of_nat (length matches) in
  let pages := pg_pages (snd (paginatedResponse items total page (Z.of_nat limit))) in
  0 <= pages /\
  concat ((fun k => page_window (S k) limit matches) <$> seq 0 (Z.to_nat pages))
    = matches /\
  (forall n, (1 <= n <= Z.to_nat pages)%nat -> page_window n limit matches <> []) /\
  (forall n, (Z.to_nat pages < n)%nat -> page_window n limit matches = []) /\
  (forall n, (1 <= n)%nat -> (length (page_window n limit matches) <= limit)%nat).
Proof.
  intros Hl total pages. subst pages. cbn.
  pose proof (Math_ceil_div_bounds total (Z.of_nat limit) ltac:(lia) ltac:(lia))
    as [Hlo Hhi].
  set (pages := Math_ceil_div total (Z.of_nat limit)) in *.
  assert (Hp : 0 <= pages) by nia.
  remember (Z.to_nat pages) as pn eqn:Hpn.
  assert (Hpages : pages = Z.of_nat pn) by lia.
  clearbody pages. subst pages total. clear Hpn.
  split_and!.
  - done.
  - rewrite concat_page_windows. apply take_ge.
    assert (Hz : Z.of_nat (pn * limit) = Z.of_nat pn * Z.of_nat limit)
      by apply Nat2Z.inj_mul.
    lia.
  - intros n Hn Hnil. unfold page_window in Hnil.
    apply (f_equal length) in Hnil. rewrite length_take, length_drop in Hnil.
    cbn in Hnil.
    assert (Hmono : ((n - 1) * limit <= (pn - 1) * limit)%nat)
      by (apply Nat.mul_le_mono_r; lia).
    assert (Hz : Z.of_nat ((pn - 1) * limit)
                 = (Z.of_nat pn - 1) * Z.of_nat limit)
      by (rewrite Nat2Z.inj_mul, Nat2Z.inj_sub by lia; lia).
    lia.
  - intros n Hn. unfold page_window. rewrite drop_ge; [apply take_nil|].
    assert (Hmono : (pn * limit <= (n - 1) * limit)%nat)
      by (apply Nat.mul_le_mono_r; lia).
    assert (Hz : Z.of_nat (pn * limit) = Z.of_nat pn * Z.of_nat limit)
      by apply Nat2Z.inj_mul.
    lia.
  - intros n _. unfold page_window. rewrite length_take. lia.
Qed.

Lemma pagination_covers_witness :
  let matches := [10; 20; 30; 40; 50] in
  let pages := pg_pages (snd (paginatedResponse ([] : list Z) 5 1 2)) in
  0 <= pages /\
  concat ((fun k => page_window (S k) 2 matches) <$> seq 0 (Z.to_nat pages))
    = matches /\
  (forall n, (1 <= n <= Z.to_nat pages)%nat -> page_window n 2 matches <> []) /\
  (forall n, (Z.to_nat pages < n)%nat -> page_window n 2 matches = []) /\
  (forall n, (1 <= n)%nat -> (length (page_window n 2 matches) <= 2)%nat).
Proof.
  apply (pagination_covers 2 [10; 20; 30; 40; 50] ([] : list Z) 1). lia.
Defined.

(** *** Status updates and the Enrollment *)

(** The Enrollments after [verifyPayment]: at most the Enrollment linked
    to the Payment found is replaced. *)
Lemma verifyPayment_enrollments env tid w :
  let r := verifyPayment env tid w in
  enrollments (store (snd r)) = enrollments (store w) \/
  exists i p e result,
    list_find (verify_filter tid) (payments (store w)) = Some (i, p) /\
    enrollments (store w) !! enrollmentId p = Some e /\
    core_status env tid = Some result /\
    let st := mapMidtransStatus (transaction_status result)
                                (fraud_status result) in
    status p <> st /\
    ((settles st = true /\
      enrollments (store (snd r))
        = <[enrollmentId p := activate e]> (enrollments (store w))) \/
     (settles st = false /\ cancels st = true /\
      enrollments (store (snd r))
        = <[enrollmentId p := set_enr_status cancelled e]> (enrollments (store w)))).
Proof.
  intros r. subst r.
  destruct w as [[ps es] ses fs tk uu wr gl].
  exec; try (by left).
  all: right; do 4 eexists; split_and!; [reflexivity|eassumption|reflexivity|done|].
  all: first [left; split; [done|reflexivity]
             |right; split_and!; [done|done|reflexivity]].
Qed.

(** X22. A status update that neither settles nor cancels (pending, deny,
    refund, partial refund, failed) changes no Enrollment, through
    processWebhook as through verifyPayment: in particular a refund
    notification leaves an active Enrollment active. *)
Theorem other_statuses_keep_enrollments env payload tid result w :
  (settles (webhook_status payload) = false ->
   cancels (webhook_status payload) = false ->
   enrollments (store (snd (processWebhook env payload w)))
     = enrollments (store w)) /\
  (core_status env tid = Some result ->
   let st := mapMidtransStatus (transaction_status result)
                               (fraud_status result) in
   settles st = false -> cancels st = false ->
   enrollments (store (snd (verifyPayment env tid w))) = enrollments (store w)).
Proof.
  split.
  - intros Hs Hc.
    destruct (processWebhook_cases env payload w) as (_ & Hcases).
    destruct Hcases as [(_ & -> & _)|[(_ & -> & _)|[(? & ? & _ & _ & _ & -> & _)
                                                 |(i & p & _ & _ & _ & ->)]]];
      try done.
    cbn. unfold spec_enrollment_update. rewrite Hs, Hc. by case_match.
  - intros Hg st Hs Hc.
    destruct (verifyPayment_enrollments env tid w)
      as [?|(i & p & e & result' & _ & _ & Hg' & _ & Hcases)]; [done|].
    assert (result' = result) by congruence. subst result'.
    fold st in Hcases.
    destruct Hcases as [[? _]|(_ & ? & _)]; congruence.
Qed.

Lemma other_statuses_keep_enrollments_witness :
  enrollments (store (snd (processWebhook refund_env refund_payload retry_world)))
    = enrollments (store retry_world) /\
  enrollments (store (snd (verifyPayment refund_env "tx-2" retry_world)))
    = enrollments (store retry_world).
Proof.
  destruct (other_statuses_keep_enrollments refund_env refund_payload "tx-2"
              (mkStatusResult "tx-2" "refund" None None 150000 None)
              retry_world) as (H1 & H2).
  split; [apply H1|apply H2]; reflexivity.
Defined.

(** X23. verifyPayment activates like processWebhook does: when the
    mapped status is SETTLEMENT or CAPTURE and differs from the stored
    one, a successful call makes the linked Enrollment active with
    progress 0 whatever its status and progress were, a completed or
    cancelled Enrollment included, and stores as paidAt the gateway's
    settlement time when it gives one, the current time otherwise. *)
Theorem verifyPayment_activates_any_status env tid w result i p e resp :
  core_status env tid = Some result ->
  let st := mapMidtransStatus (transaction_status result) (fraud_status result) in
  settles st = true ->
  list_find (verify_filter tid) (payments (store w)) = Some (i, p) ->
  status p <> st ->
  enrollments (store w) !! enrollmentId p = Some e ->
  fst (verifyPayment env tid w) = Ok resp ->
  let w' := snd (verifyPayment env tid w) in
  enrollments (store w') !! enrollmentId p = Some (activate e) /\
  enr_status (activate e) = active /\ progress (activate e) = 0 /\
  exists p', payments (store w') !! i = Some p' /\ status p' = st /\
             paidAt p' = Some (default (clock env (ticks w))
                                       (settlement_time result)).
Proof.
  intros Hg st Hs Hf Hne He Hok w'.
  destruct (verifyPayment_settles env tid w result i p e resp Hg Hs Hf Hne He Hok)
    as (Hstore & _).
  fold w' in Hstore. fold st in Hstore. rewrite Hstore. cbn.
  pose proof (proj1 (list_find_Some _ _ _ _) Hf) as (Hi & _).
  split_and!; try done.
  - apply lookup_insert_eq.
  - eexists. split_and!.
    + apply list_lookup_insert_eq. eauto using lookup_lt_Some.
    + apply spec_payment_update_status.
    + unfold spec_payment_update, verify_paid_time. rewrite Hs. cbn.
      by destruct (settlement_time result).
Qed.

Lemma verifyPayment_activates_any_status_witness :
  let w' := snd (verifyPayment sample_env "tx-1" completed_world) in
  enrollments (store w') !! enrollmentId orphan_payment
    = Some (activate completed_enrollment) /\
  enr_status (activate completed_enrollment) = active /\
  progress (activate completed_enrollment) = 0 /\
  exists p', payments (store w') !! 0%nat = Some p' /\ status p' = SETTLEMENT /\
             paidAt p' = Some (default (clock sample_env (ticks completed_world))
                                       None).
Proof.
  eapply (verifyPayment_activates_any_status sample_env "tx-1" completed_world
            (mkStatusResult "tx-1" "settlement" None (Some "gopay") 150000 None)
            0%nat orphan_payment completed_enrollment);
    first [reflexivity | discriminate | (vm_compute; reflexivity)].
Defined.
